(** * Reasoning extraction, prompt templating and tip retrieval

    A shallow embedding of the three pieces of logic that the workshop
    notebooks implement themselves:

    - [plan_trip_with_reasoning] (DeepSeek-R1 notebook): one chat completion
      call followed by the extraction of a [<thinking>] section;
    - [chat_with_template] (chat completions notebook): a system prompt
      rendered with [str.format];
    - [retrieve_tips] (multi-agent RAG notebook): keyword retrieval over
      five health tips.

    Around them it embeds the other functions of the same notebooks and
    the cells that call them: [solve_technical_problem],
    [chat_with_fitness_assistant], the whole of [chat_with_template],
    [embed_with_template] of the embeddings notebook, and [run_query].

    A Python [str] is modelled as a Rocq [string] whose characters are the
    code points U+0000 to U+00FF; the built-in string methods the notebooks
    call are defined in module [Str] with their Python meaning on that
    range. *)

From Stdlib Require Import ZArith Ascii String QArith.
From stdpp Require Import base decidable option list strings gmap.

Local Open Scope Z_scope.

(** ** Exceptions

    An exception is its class name, its message, and whether the class
    derives from [Exception] (what [except Exception] catches;
    [KeyboardInterrupt] and [SystemExit] do not). *)

Record PyExn : Type := Exn {
  exn_class : string;
  exn_msg : string;
  exn_is_Exception : bool
}.

Global Instance PyExn_eq_dec : EqDecision PyExn.
Proof. solve_decision. Defined.

Definition KeyError (key : string) : PyExn := Exn "KeyError" key true.
Definition ValueError (msg : string) : PyExn := Exn "ValueError" msg true.
Definition TypeError (msg : string) : PyExn := Exn "TypeError" msg true.

(** ** Python string built-ins *)

Module Str.

(** [len(s)] as a Python int. *)
Definition len (s : string) : Z := Z.of_nat (String.length s).

(** [c.isspace()] for a code point below 256: the characters that
    [str.strip()] and [str.split()] treat as whitespace. *)
Definition isspace (c : ascii) : bool :=
  let n := Z.of_nat (nat_of_ascii c) in
  ((9 <=? n) && (n <=? 13)) || ((28 <=? n) && (n <=? 32))
  || (n =? 133) || (n =? 160).

(** [c.lower()] for a code point below 256: A-Z and the accented capitals
    U+00C0-U+00DE (the multiplication sign U+00D7 apart) move up by 32. *)
Definition lower_char (c : ascii) : ascii :=
  let n := nat_of_ascii c in
  let z := Z.of_nat n in
  if ((65 <=? z) && (z <=? 90))
     || ((192 <=? z) && (z <=? 222) && negb (z =? 215))
  then ascii_of_nat (n + 32) else c.

(** [s.lower()] *)
Fixpoint lower (s : string) : string :=
  match s with
  | EmptyString => EmptyString
  | String c s' => String (lower_char c) (lower s')
  end.

(** [s.startswith(sub)] *)
Fixpoint startswith (sub s : string) : bool :=
  match sub, s with
  | EmptyString, _ => true
  | String _ _, EmptyString => false
  | String a sub', String b s' => bool_decide (a = b) && startswith sub' s'
  end.

(** Lowest offset at which [sub] starts in [s], if there is one. *)
Fixpoint index (sub s : string) : option nat :=
  if startswith sub s then Some 0%nat
  else match s with
       | EmptyString => None
       | String _ s' => S <$> index sub s'
       end.

(** [s.find(sub)]: the lowest index of [sub] in [s], or [-1]. *)
Definition find (sub s : string) : Z :=
  match index sub s with
  | Some i => Z.of_nat i
  | None => -1
  end.

(** [sub in s] *)
Definition contains (sub s : string) : bool :=
  bool_decide (is_Some (index sub s)).

(** How a slice bound is brought into [0 .. len]: a negative bound counts
    from the end, and both ends saturate. *)
Definition clamp (n i : Z) : Z :=
  if i <? 0 then Z.max (i + n) 0 else Z.min i n.

(** [s[lo:hi]] *)
Definition slice (s : string) (lo hi : Z) : string :=
  let a := clamp (len s) lo in
  let b := clamp (len s) hi in
  String.substring (Z.to_nat a) (Z.to_nat (b - a)) s.

(** [s[lo:]] *)
Definition slice_from (s : string) (lo : Z) : string :=
  let a := clamp (len s) lo in
  String.substring (Z.to_nat a) (Z.to_nat (len s - a)) s.

(** [s.lstrip()] *)
Fixpoint lstrip (s : string) : string :=
  match s with
  | EmptyString => EmptyString
  | String c s' => if isspace c then lstrip s' else s
  end.

(** [s.rstrip()] *)
Fixpoint rstrip (s : string) : string :=
  match s with
  | EmptyString => EmptyString
  | String c s' =>
      match rstrip s' with
      | EmptyString => if isspace c then EmptyString else String c EmptyString
      | r => String c r
      end
  end.

(** [s.strip()] *)
Definition strip (s : string) : string := rstrip (lstrip s).

(** [s.split()]: the maximal runs of non-whitespace characters, in order.
    [cur] is the run being read. *)
Fixpoint split_go (cur : string) (s : string) : list string :=
  match s with
  | EmptyString => if bool_decide (cur = "") then [] else [cur]
  | String c s' =>
      if isspace c
      then (if bool_decide (cur = "") then [] else [cur]) ++ split_go "" s'
      else split_go (cur +:+ String c "") s'
  end.

Definition split (s : string) : list string := split_go "" s.

(** [sep.join(parts)] *)
Fixpoint join (sep : string) (parts : list string) : string :=
  match parts with
  | [] => ""
  | [p] => p
  | p :: rest => p +:+ sep +:+ join sep rest
  end.

(** *** [str.format] with keyword arguments

    The replacement fields modelled are the plain ones, [{name}] with
    [name] an identifier, and the escapes [{{] and [}}]. On anything else
    inside a field (positional or numbered fields, attribute and index
    access, conversions, format specifications, nested fields) the model
    is silent: [FormatUnmodelled]. Keyword values are strings, which
    [format] inserts as they are. *)

Definition is_ident_start (c : ascii) : bool :=
  let n := Z.of_nat (nat_of_ascii c) in
  ((65 <=? n) && (n <=? 90)) || ((97 <=? n) && (n <=? 122)) || (n =? 95).

Definition is_ident_char (c : ascii) : bool :=
  let n := Z.of_nat (nat_of_ascii c) in
  is_ident_start c || ((48 <=? n) && (n <=? 57)).

Definition lbrace : ascii := "{"%char.
Definition rbrace : ascii := "}"%char.

Inductive FormatOutcome : Type :=
| Formatted (s : string)
| FormatRaises (e : PyExn)
| FormatUnmodelled.

(** Text already produced goes in front of what the rest of the scan
    produces; an error of the rest of the scan stays the error. *)
Definition emit (pre : string) (r : FormatOutcome) : FormatOutcome :=
  match r with
  | Formatted s => Formatted (pre +:+ s)
  | _ => r
  end.

(** The left-to-right scan. [field] is [None] in literal text and
    [Some name] inside a replacement field of which [name] has been
    read. *)
Fixpoint format_go (kwargs : gmap string string) (field : option string)
    (s : string) : FormatOutcome :=
  match field, s with
  | None, EmptyString => Formatted ""
  | None, String c s' =>
      if bool_decide (c = lbrace) then
        match s' with
        | EmptyString =>
            FormatRaises (ValueError "Single '{' encountered in format string")
        | String c' s'' =>
            if bool_decide (c' = lbrace)
            then emit "{" (format_go kwargs None s'')
            else format_go kwargs (Some "") s'
        end
      else if bool_decide (c = rbrace) then
        match s' with
        | EmptyString =>
            FormatRaises (ValueError "Single '}' encountered in format string")
        | String c' s'' =>
            if bool_decide (c' = rbrace)
            then emit "}" (format_go kwargs None s'')
            else FormatRaises
                   (ValueError "Single '}' encountered in format string")
        end
      else emit (String c "") (format_go kwargs None s')
  | Some name, EmptyString =>
      FormatRaises (ValueError "expected '}' before end of string")
  | Some name, String c s' =>
      if bool_decide (c = rbrace) then
        match name with
        | EmptyString => FormatUnmodelled
        | String _ _ =>
            match kwargs !! name with
            | Some v => emit v (format_go kwargs None s')
            | None => FormatRaises (KeyError name)
            end
        end
      else if (if bool_decide (name = "") then is_ident_start c
               else is_ident_char c)
      then format_go kwargs (Some (name +:+ String c "")) s'
      else FormatUnmodelled
  end.

(** [template.format(k1=v1, ..., kn=vn)], [kwargs] holding the keyword
    arguments. *)
Definition format (template : string) (kwargs : gmap string string)
    : FormatOutcome :=
  format_go kwargs None template.

End Str.

(** ** Python values and outcomes of a call *)

(** The values [plan_trip_with_reasoning] can return: [None], a [str], or
    the dictionary with the keys ["thinking"], ["answer"] and
    ["full_response"]. *)
Inductive PyValue : Type :=
| VNone
| VStr (s : string)
| VDict (thinking answer full_response : string).

Global Instance PyValue_eq_dec : EqDecision PyValue.
Proof. solve_decision. Defined.

(** ** The reasoning extraction of [plan_trip_with_reasoning] *)

Module Reasoning.

Definition open_tag : string := "<thinking>".
Definition close_tag : string := "</thinking>".

(** [thinking_start = content.find("<thinking>") + 10] *)
Definition thinking_start (content : string) : Z :=
  Str.find open_tag content + 10.

(** [thinking_end = content.find("</thinking>")] *)
Definition thinking_end (content : string) : Z :=
  Str.find close_tag content.

(** [thinking = content[thinking_start:thinking_end].strip()] *)
Definition thinking (content : string) : string :=
  Str.strip (Str.slice content (thinking_start content) (thinking_end content)).

(** [final_answer = content[thinking_end + 12:].strip()] *)
Definition final_answer (content : string) : string :=
  Str.strip (Str.slice_from content (thinking_end content + 12)).

(** The statements that follow
    [content = response.choices[0].message.content]: the guarded
    extraction, and [return content] otherwise. *)
Definition extract (show_thinking : bool) (content : string) : PyValue :=
  if show_thinking && Str.contains open_tag content
     && Str.contains close_tag content
  then VDict (thinking content) (final_answer content) content
  else VStr content.

End Reasoning.


(** ** Requests, the transport and the trace of a run *)

Inductive Message : Type :=
| SystemMessage (content : string)
| UserMessage (content : string).

(** The arguments of one
    [get_azure_openai_client(api_version=...)] / [chat.completions.create(...)]
    round. The notebooks pass the sampling options through untouched. *)
Record ChatRequest : Type := {
  api_version : string;
  messages : list Message;
  model : string;
  temperature : option Q;
  max_tokens : option Z
}.

(** What a call prints. *)
Inductive Stdout : Type :=
| ErrorCallingAPI (e : PyExn)
| DeploymentHint (model_name : string).

(** What a call does to the outside world, in order. *)
Inductive Event : Type :=
| Sent (req : ChatRequest)
| Printed (line : Stdout).

Definition Trace : Type := list Event.

(** The model endpoint behind [project_client]: given what has happened so
    far and a request, it raises or answers. An answer is represented by
    [response.choices[0].message.content], which is a text or [None]. The
    whole [with] block of a notebook function (obtain the client, create
    the completion, close the client) is one invocation. *)
Definition Transport : Type :=
  Trace → ChatRequest → PyExn + option string.

Inductive Outcome (A : Type) : Type :=
| Returned (a : A)
| Raised (e : PyExn).
Arguments Returned {A} a.
Arguments Raised {A} e.

(** A computation extends the trace and returns or raises. *)
Definition Py (A : Type) : Type := Trace → Outcome A * Trace.

Definition py_ret {A} (a : A) : Py A := λ tr, (Returned a, tr).

Definition py_bind {A B} (m : Py A) (k : A → Py B) : Py B :=
  λ tr, match m tr with
        | (Returned a, tr') => k a tr'
        | (Raised e, tr') => (Raised e, tr')
        end.

Global Instance Py_ret : MRet Py := @py_ret.
Global Instance Py_bind : MBind Py := λ A B k m, py_bind m k.

Definition py_raise {A} (e : PyExn) : Py A := λ tr, (Raised e, tr).

Definition send (T : Transport) (req : ChatRequest)
    : Py (option string) :=
  λ tr, (match T tr req with
         | inl e => Raised e
         | inr content => Returned content
         end, tr ++ [Sent req]).

Definition print (line : Stdout) : Py unit :=
  λ tr, (Returned tt, tr ++ [Printed line]).

(** [try: body / except Exception as e: handler] *)
Definition try_except {A} (body : Py A) (handler : PyExn → Py A) : Py A :=
  λ tr, match body tr with
        | (Raised e, tr') =>
            if exn_is_Exception e then handler e tr' else (Raised e, tr')
        | r => r
        end.

(** Number of transport invocations in a trace. *)
Definition is_send (ev : Event) : bool :=
  match ev with Sent _ => true | Printed _ => false end.

Definition invocations (tr : Trace) : nat :=
  length (List.filter is_send tr).

(** ** [plan_trip_with_reasoning] *)

Definition model_name : string := "DeepSeek-R1-0528".

Definition trip_request (query : string) : ChatRequest := {|
  api_version := "2024-10-21";
  messages :=
    [ SystemMessage
        "You are a travel expert. Provide detailed plans with rationale.";
      UserMessage
        (query +:+ " Include hidden gems and safety considerations.") ];
  model := model_name;
  temperature := Some (7 # 10)%Q;
  max_tokens := Some 1024
|}.

(** What [x in None] raises. *)
Definition not_iterable : PyExn :=
  TypeError "argument of type 'NoneType' is not iterable".

(** The statements after [content = response.choices[0].message.content]
    on a content that may be [None]. A text goes through
    [Reasoning.extract]. On [None] the test [show_thinking and
    "<thinking>" in content] raises as soon as it reaches the membership
    test, that is when [show_thinking] holds; when it does not, the test is
    false and [content], which is [None], is returned. *)
Definition extract_content (show_thinking : bool) (content : option string)
    : Py PyValue :=
  match content with
  | Some text => mret (Reasoning.extract show_thinking text)
  | None => if show_thinking then py_raise not_iterable else mret VNone
  end.

Definition plan_trip_with_reasoning (T : Transport) (query : string)
    (show_thinking : bool) : Py PyValue :=
  try_except
    (content ← send T (trip_request query);
     extract_content show_thinking content)
    (λ e,
      print (ErrorCallingAPI e);;
      print (DeploymentHint model_name);;
      mret VNone).

(** [show_thinking=False] is the default. *)
Definition plan_trip_with_reasoning_default (T : Transport) (query : string)
    : Py PyValue :=
  plan_trip_with_reasoning T query false.

(** ** The system prompt of [chat_with_template] *)

Definition newline : string := String "010" "".

Definition system_template : string :=
  "You are FitChat GPT, an AI personal trainer for {name}." +:+ newline +:+
  "Your user wants to achieve: {goal}." +:+ newline +:+
  "Remind them you're not a medical professional. Offer friendly advice.".

(** [system_prompt = system_template.format(name=user_name, goal=goal)] *)
Definition system_prompt (user_name goal : string) : Str.FormatOutcome :=
  Str.format system_template
    (<["name" := user_name]> (<["goal" := goal]> ∅)).

(** ** [retrieve_tips] *)

Record Tip : Type := {
  tip_id : string;
  tip_content : string;
  tip_source : string
}.

Definition health_tips : list Tip := [
  {| tip_id := "tip1";
     tip_content := "Do a 10-minute HIIT workout to boost your metabolism.";
     tip_source := "Fitness Guru" |};
  {| tip_id := "tip2";
     tip_content :=
       "Take a brisk 15-minute walk to clear your mind and improve circulation.";
     tip_source := "Health Coach" |};
  {| tip_id := "tip3";
     tip_content :=
       "Stretch for 5 minutes every hour if you're sitting at a desk.";
     tip_source := "Wellness Expert" |};
  {| tip_id := "tip4";
     tip_content :=
       "Incorporate strength training twice a week for overall fitness.";
     tip_source := "Personal Trainer" |};
  {| tip_id := "tip5";
     tip_content := "Drink water regularly to stay hydrated during workouts.";
     tip_source := "Nutritionist" |}
].

(** [f"Source: {tip['source']} => {tip['content']}"] *)
Definition tip_line (tip : Tip) : string :=
  "Source: " +:+ tip_source tip +:+ " => " +:+ tip_content tip.

(** [any(word in tip["content"].lower() for word in query_lower.split())] *)
Definition any_word_in (query_lower : string) (tip : Tip) : bool :=
  existsb (λ word, Str.contains word (Str.lower (tip_content tip)))
          (Str.split query_lower).

(** The [for tip in health_tips] loop: [relevant] grows by [append]. *)
Definition collect (query_lower : string) (tips : list Tip) : list string :=
  foldl (λ relevant tip,
           if any_word_in query_lower tip
           then relevant ++ [tip_line tip] else relevant)
        [] tips.

Definition retrieve_tips (query : string) : string :=
  let query_lower := Str.lower query in
  let relevant := collect query_lower health_tips in
  let relevant :=
    if bool_decide (relevant = []) then tip_line <$> health_tips
    else relevant in
  Str.join newline relevant.

(** ** Runs over other events

    The remaining notebook functions call other services and print other
    lines than [plan_trip_with_reasoning] does. [Run Ev] is [Py] over any
    type [Ev] of events. *)

Definition Run (Ev A : Type) : Type := list Ev → Outcome A * list Ev.

Definition run_ret {Ev A} (a : A) : Run Ev A := λ log, (Returned a, log).

Definition run_raise {Ev A} (e : PyExn) : Run Ev A := λ log, (Raised e, log).

Definition run_bind {Ev A B} (m : Run Ev A) (k : A → Run Ev B) : Run Ev B :=
  λ log, match m log with
         | (Returned a, log') => k a log'
         | (Raised e, log') => (Raised e, log')
         end.

Global Instance Run_ret {Ev} : MRet (Run Ev) := @run_ret Ev.
Global Instance Run_bind {Ev} : MBind (Run Ev) := λ A B k m, run_bind m k.

(** A call to the outside: it is logged as [ev], and it raises or answers,
    possibly depending on what has happened so far. *)
Definition call {Ev A} (ev : Ev) (answer : list Ev → PyExn + A) : Run Ev A :=
  λ log, (match answer log with
          | inl e => Raised e
          | inr a => Returned a
          end, log ++ [ev]).

(** A line on standard output. *)
Definition say {Ev} (ev : Ev) : Run Ev unit :=
  λ log, (Returned tt, log ++ [ev]).

(** [try: body / except Exception as e: handler] *)
Definition except_Exception {Ev A} (body : Run Ev A)
    (handler : PyExn → Run Ev A) : Run Ev A :=
  λ log, match body log with
         | (Raised e, log') =>
             if exn_is_Exception e then handler e log' else (Raised e, log')
         | r => r
         end.

(** [bool(v)]: [None], the empty string and the empty dictionary are false;
    the dictionary of [plan_trip_with_reasoning] has three keys. *)
Definition truthy (v : PyValue) : bool :=
  match v with
  | VNone => false
  | VStr s => negb (bool_decide (s = ""))
  | VDict _ _ _ => true
  end.

(** ** [solve_technical_problem] and the cell that calls it *)

Inductive SolveLine : Type :=
| ProblemLine (problem : string)
| ErrorSolvingProblem (e : PyExn)
| SolutionHeader
| SolutionText (solution : PyValue)
| FailedToGetSolution.

Inductive SolveEvent : Type :=
| SolveSent (req : ChatRequest)
| SolvePrinted (line : SolveLine).

Definition SolveTransport : Type :=
  list SolveEvent → ChatRequest → PyExn + option string.

(** [message.content] as the value that is returned: the text, or
    [None]. *)
Definition content_value (content : option string) : PyValue :=
  match content with
  | Some text => VStr text
  | None => VNone
  end.

(** The fixed end of the prompt; in the f-string the braces are doubled and
    the backslash escaped. *)
Definition boxed_suffix : string :=
  " Please reason step by step, and put your final answer within \boxed{}.".

Definition problem_request (problem : string) : ChatRequest := {|
  api_version := "2024-10-21";
  messages := [UserMessage (problem +:+ boxed_suffix)];
  model := model_name;
  temperature := Some (3 # 10)%Q;
  max_tokens := Some 2048
|}.

Definition solve_technical_problem (T : SolveTransport) (problem : string)
    : Run SolveEvent PyValue :=
  except_Exception
    (content ← call (SolveSent (problem_request problem))
                    (λ log, T log (problem_request problem));
     mret (content_value content))
    (λ e,
      say (SolvePrinted (ErrorSolvingProblem e));;
      mret VNone).

(** The cell: print the problem, call, and print the solution or the
    failure line. *)
Definition solution_cell (T : SolveTransport) (problem : string)
    : Run SolveEvent unit :=
  say (SolvePrinted (ProblemLine problem));;
  solution ← solve_technical_problem T problem;
  if truthy solution
  then say (SolvePrinted SolutionHeader);;
       say (SolvePrinted (SolutionText solution))
  else say (SolvePrinted FailedToGetSolution).

(** ** The cell that calls [plan_trip_with_reasoning] *)

Inductive TripLine : Type :=
| QueryLine (query : string)
| ThinkingHeader
| RecommendationHeader
| TravelPlanHeader
| TripText (text : string)
| FailedToGetRecommendations.

(** What the cell prints once the call has returned [result]. *)
Definition trip_report (query : string) (result : PyValue) : list TripLine :=
  QueryLine query ::
  match result with
  | VDict thinking answer _ =>
      [ThinkingHeader; TripText thinking; RecommendationHeader;
       TripText answer]
  | VStr s =>
      if truthy result then [TravelPlanHeader; TripText s]
      else [FailedToGetRecommendations]
  | VNone => [FailedToGetRecommendations]
  end.

(** The cell: the call with [show_thinking=True], and then the report. The
    events of the call come first, the lines of the report after them. *)
Definition trip_cell (T : Transport) (query : string) (tr : Trace)
    : Outcome unit * Trace * list TripLine :=
  match plan_trip_with_reasoning T query true tr with
  | (Returned result, tr') => (Returned tt, tr', trip_report query result)
  | (Raised e, tr') => (Raised e, tr', [])
  end.

(** ** [chat_with_fitness_assistant] *)

Definition system_text : string :=
  "You are FitChat GPT, a friendly fitness assistant." +:+ newline +:+
  "Always remind users: I'm not a medical professional." +:+ newline +:+
  "Answer with empathy and disclaimers.".

(** A request of the chat notebook: a system message, the user message and
    the deployment name, with no sampling options. *)
Definition chat_request (model_deployment system user : string)
    : ChatRequest := {|
  api_version := "2024-10-21";
  messages := [SystemMessage system; UserMessage user];
  model := model_deployment;
  temperature := None;
  max_tokens := None
|}.

(** [model_deployment] is the notebook's global of that name. What is
    returned is [message.content], a text or [None]. *)
Definition chat_with_fitness_assistant (T : Transport)
    (model_deployment user_input : string) : Py (option string) :=
  send T (chat_request model_deployment system_text user_input).

(** ** [chat_with_template] *)

(** The rendering first, then the call; neither is inside a [try]. The
    result is [None] where the model of [format] is silent. *)
Definition chat_with_template (T : Transport)
    (model_deployment user_input user_name goal : string)
    : option (Py (option string)) :=
  match system_prompt user_name goal with
  | Str.Formatted prompt =>
      Some (send T (chat_request model_deployment prompt user_input))
  | Str.FormatRaises e => Some (λ tr, (Raised e, tr))
  | Str.FormatUnmodelled => None
  end.

(** ** [embed_with_template] *)

Definition TEMPLATE_SYSTEM : string :=
  "You are HealthFitGPT, a fitness guidance model." +:+ newline +:+
  "Please focus on healthy advice and disclaim you're not a doctor."
  +:+ newline +:+ newline +:+ "User message:".

(** The arguments of one [embeddings.create] round. *)
Record EmbeddingRequest : Type := {
  embed_api_version : string;
  embed_model : string;
  embed_input : list string
}.

Inductive EmbedEvent : Type :=
| EmbedSent (req : EmbeddingRequest).

Definition IndexError : PyExn :=
  Exn "IndexError" "list index out of range" true.

(** [content = TEMPLATE_SYSTEM + " " + user_text] *)
Definition embed_content (user_text : string) : string :=
  TEMPLATE_SYSTEM +:+ " " +:+ user_text.

(** [TEXT_EMBEDDING_MODEL] is the notebook's global of that name. *)
Definition embed_request (TEXT_EMBEDDING_MODEL user_text : string)
    : EmbeddingRequest := {|
  embed_api_version := "2024-10-21";
  embed_model := TEXT_EMBEDDING_MODEL;
  embed_input := [embed_content user_text]
|}.

Section Embeddings.

(** An embedding is a vector of floats that the function hands on as it
    gets it. *)
Context {Embedding : Type}.

(** The embeddings endpoint: it raises or answers with [rsp.data], each
    item represented by its [embedding]. *)
Definition EmbedTransport : Type :=
  list EmbedEvent → EmbeddingRequest → PyExn + list Embedding.

Definition embed_with_template (T : EmbedTransport)
    (TEXT_EMBEDDING_MODEL user_text : string) : Run EmbedEvent Embedding :=
  let req := embed_request TEXT_EMBEDDING_MODEL user_text in
  data ← call (EmbedSent req) (λ log, T log req);
  match data with
  | [] => run_raise IndexError
  | first :: _ => mret first
  end.

End Embeddings.

(** ** [run_query] *)

Inductive StreamLine : Type :=
| MessageLine (source content : string)
| FinalResponse (text : string).

Definition AttributeError (attribute : string) : PyExn :=
  Exn "AttributeError" attribute true.

Section RunQuery.

(** What [group_chat.run_stream] yields is the framework's. The function
    reads three things off an item: its [content], if it has that
    attribute, as the text that printing it gives; its [source], if it has
    that attribute; and its truth value. *)
Context {Item : Type}.
Context (content_of source_of : Item → option string).
Context (is_true : Item → bool).

(** The body of the loop up to [final_result = message]. *)
Definition show_message (message : Item) : Run StreamLine unit :=
  match content_of message with
  | Some content =>
      match source_of message with
      | Some source => say (MessageLine source content)
      | None => run_raise (AttributeError "source")
      end
  | None => mret tt
  end.

(** The loop over the items that the stream yields before it ends. *)
Fixpoint stream_loop (final_result : option Item) (items : list Item)
    : Run StreamLine (option Item) :=
  match items with
  | [] => mret final_result
  | message :: rest =>
      show_message message;;
      stream_loop (Some message) rest
  end.

(** [final_result.content if final_result else "No response"] *)
Definition final_text (final_result : option Item) : Run StreamLine string :=
  match final_result with
  | Some message =>
      if is_true message
      then match content_of message with
           | Some content => mret content
           | None => run_raise (AttributeError "content")
           end
      else mret "No response"
  | None => mret "No response"
  end.

Definition run_query (items : list Item) : Run StreamLine unit :=
  run_bind (stream_loop None items) (λ final_result,
  run_bind (final_text final_result) (λ text,
  say (FinalResponse text))).

End RunQuery.

(** ** Vocabulary of the specification *)

(** [sub] occurs in [s] at offset [i]. *)
Definition occurs_at (sub s : string) (i : nat) : Prop :=
  ∃ pre post, s = pre +:+ sub +:+ post ∧ String.length pre = i.

(** [i] is the first offset at or after [start] at which [sub] occurs. *)
Definition first_occurrence_from (start : nat) (sub s : string) (i : nat)
    : Prop :=
  (start ≤ i)%nat ∧ occurs_at sub s i
  ∧ ∀ j, (start ≤ j < i)%nat → ¬ occurs_at sub s j.

(** The specification's [SplitResult]. *)
Record SplitResult : Type := {
  reasoning : option string;
  answer : string;
  fullText : string
}.

(** A returned value read as a [SplitResult], the way the cell that calls
    [plan_trip_with_reasoning] reads it: a dictionary carries the thinking
    and the answer, a plain string is the recommendation with no thinking,
    [None] is a failed call. *)
Definition SplitResult_of (v : PyValue) : option SplitResult :=
  match v with
  | VDict t a f => Some {| reasoning := Some t; answer := a; fullText := f |}
  | VStr s => Some {| reasoning := None; answer := s; fullText := s |}
  | VNone => None
  end.

(** Whitespace only. *)
Fixpoint all_space (s : string) : bool :=
  match s with
  | EmptyString => true
  | String c s' => Str.isspace c && all_space s'
  end.

(** No whitespace at all. *)
Fixpoint no_space (s : string) : bool :=
  match s with
  | EmptyString => true
  | String c s' => negb (Str.isspace c) && no_space s'
  end.

Definition starts_with_space (s : string) : bool :=
  match s with
  | EmptyString => false
  | String c _ => Str.isspace c
  end.

Fixpoint ends_with_space (s : string) : bool :=
  match s with
  | EmptyString => false
  | String c EmptyString => Str.isspace c
  | String _ s' => ends_with_space s'
  end.

(** [t] is [s] with its leading and trailing whitespace trimmed. *)
Definition trimmed (s t : string) : Prop :=
  (∃ l r, s = l +:+ t +:+ r ∧ all_space l = true ∧ all_space r = true)
  ∧ starts_with_space t = false ∧ ends_with_space t = false.

(** The tag positions as the specification words them: the offset behind
    [thinking_start] is the first occurrence of the open tag, and
    [thinking_end] is the first occurrence of the close tag at or after the
    end of that open tag. *)
Definition locates_as_specified (content : string) : Prop :=
  ∃ i j,
    Reasoning.thinking_start content = Z.of_nat i + 10
    ∧ Reasoning.thinking_end content = Z.of_nat j
    ∧ first_occurrence_from 0 Reasoning.open_tag content i
    ∧ first_occurrence_from (i + 10) Reasoning.close_tag content j.

(** The tag positions as the code computes them: each tag is searched from
    the start of the text, independently of the other. *)
Definition locates_from_start (content : string) : Prop :=
  ∃ i j,
    Reasoning.thinking_start content = Z.of_nat i + 10
    ∧ Reasoning.thinking_end content = Z.of_nat j
    ∧ first_occurrence_from 0 Reasoning.open_tag content i
    ∧ first_occurrence_from 0 Reasoning.close_tag content j.

(** A call propagates [e]: it raises [e] to its caller. *)
Definition propagates {A} (m : Py A) (tr : Trace) (e : PyExn) : Prop :=
  (m tr).1 = Raised e.

(** What the specification's splitter returns for a text whose open tag is
    never closed: the stripped remainder after the open tag as reasoning and
    an empty answer. *)
Definition unterminated_result (content : string) : SplitResult := {|
  reasoning :=
    Some (Str.strip
            (Str.slice_from content (Reasoning.thinking_start content)));
  answer := "";
  fullText := content
|}.

(** *** Prompt templates

    The specification's [PromptTemplate]: literal text and named
    placeholders, in order. *)
Inductive Segment : Type :=
| Lit (text : string)
| Placeholder (name : string).

Definition PromptTemplate : Type := list Segment.

(** Literal text as a format string writes it: braces doubled. *)
Fixpoint escape (text : string) : string :=
  match text with
  | EmptyString => EmptyString
  | String c text' =>
      if bool_decide (c = Str.lbrace) then "{{" +:+ escape text'
      else if bool_decide (c = Str.rbrace) then "}}" +:+ escape text'
      else String c (escape text')
  end.

(** The template as the string handed to [format]. *)
Fixpoint template_text (tpl : PromptTemplate) : string :=
  match tpl with
  | [] => ""
  | Lit text :: tpl' => escape text +:+ template_text tpl'
  | Placeholder name :: tpl' => "{" +:+ name +:+ "}" +:+ template_text tpl'
  end.

Fixpoint all_ident_chars (name : string) : bool :=
  match name with
  | EmptyString => true
  | String c name' => Str.is_ident_char c && all_ident_chars name'
  end.

(** Placeholder names are identifiers. *)
Definition is_identifier (name : string) : bool :=
  match name with
  | EmptyString => false
  | String c name' => Str.is_ident_start c && all_ident_chars name'
  end.

(** The placeholders of a template in left-to-right order. *)
Fixpoint placeholders (tpl : PromptTemplate) : list string :=
  match tpl with
  | [] => []
  | Lit _ :: tpl' => placeholders tpl'
  | Placeholder name :: tpl' => name :: placeholders tpl'
  end.

Definition well_formed (tpl : PromptTemplate) : Prop :=
  forallb is_identifier (placeholders tpl) = true.

(** The first placeholder, in left-to-right order, that has no binding. *)
Definition first_unbound (bindings : gmap string string)
    (tpl : PromptTemplate) : option string :=
  head (filter (λ name, bindings !! name = None) (placeholders tpl)).

(** The template with every placeholder replaced by its bound value. *)
Fixpoint fill (bindings : gmap string string) (tpl : PromptTemplate)
    : string :=
  match tpl with
  | [] => ""
  | Lit text :: tpl' => text +:+ fill bindings tpl'
  | Placeholder name :: tpl' =>
      default "" (bindings !! name) +:+ fill bindings tpl'
  end.

(** The specification's [MissingBindingError] is the [KeyError] that
    [format] raises. *)
Definition MissingBindingError (name : string) : PyExn := KeyError name.

(** The specification's [render]: the template's text, formatted with the
    bindings as keyword arguments. *)
Definition render (tpl : PromptTemplate) (bindings : gmap string string)
    : Str.FormatOutcome :=
  Str.format (template_text tpl) bindings.

(** ** Sample inputs *)

Definition scenario1 : string :=
  "<thinking>Check weather first.</thinking>Visit Kyoto in April.".

Definition scenario2 : string := "Just a plain answer, no tags.".

Definition unterminated : string := "<thinking>abc".

Definition close_before_open : string :=
  "</thinking>a<thinking>b</thinking>c".

Definition kyoto_query : string :=
  "Plan a 5-day cultural trip to Kyoto in April".

Definition auth_failure : PyExn :=
  Exn "ClientAuthenticationError" "Authentication failed" true.

(** Scenario 4: ["Hello {name}."] *)
Definition hello_template : PromptTemplate :=
  [Lit "Hello "; Placeholder "name"; Lit "."].

(** Scenario 3: ["Hello {name}, goal: {goal}."] *)
Definition hello_goal_template : PromptTemplate :=
  [Lit "Hello "; Placeholder "name"; Lit ", goal: "; Placeholder "goal";
   Lit "."].

(** The template of [chat_with_template], segment by segment. *)
Definition system_segments : PromptTemplate :=
  [Lit "You are FitChat GPT, an AI personal trainer for ";
   Placeholder "name";
   Lit ("." +:+ newline +:+ "Your user wants to achieve: ");
   Placeholder "goal";
   Lit ("." +:+ newline +:+
        "Remind them you're not a medical professional. Offer friendly advice.")].

(** A transport that always fails to authenticate. *)
Definition failing_transport : Transport := λ _ _, inl auth_failure.

(** A transport whose answers have no content. *)
Definition no_content_transport : Transport := λ _ _, inr None.

(** A transport that always answers with the same text. *)
Definition canned_transport (content : string) : Transport :=
  λ _ _, inr (Some content).

(** The tips as the text that the claim describes, written out without the
    code's helpers: one line per tip, [Source: <source> => <content>], and a
    line break between two lines. *)
Fixpoint tips_text (tips : list Tip) : string :=
  match tips with
  | [] => ""
  | [tip] => "Source: " +:+ tip_source tip +:+ " => " +:+ tip_content tip
  | tip :: rest =>
      "Source: " +:+ tip_source tip +:+ " => " +:+ tip_content tip
      +:+ String "010" (tips_text rest)
  end.

(** *** Vocabulary for the other functions *)

(** The tips that some word of the query matches, in the order of
    [health_tips]. *)
Definition matching_tips (query : string) : list Tip :=
  filter (λ tip, any_word_in (Str.lower query) tip = true) health_tips.

(** All five tips, one per line: what [retrieve_tips] falls back to. *)
Definition all_tip_lines : string :=
  Str.join newline (tip_line <$> health_tips).

(** The message lines of a stream: one for each item that has a [content]
    and a [source]. *)
Definition message_lines {Item : Type}
    (content_of source_of : Item → option string) (items : list Item)
    : list StreamLine :=
  omap (λ message,
          content ← content_of message;
          source ← source_of message;
          Some (MessageLine source content)) items.

(** Every item that has a [content] has a [source] as well. *)
Definition sources_present {Item : Type}
    (content_of source_of : Item → option string) (items : list Item)
    : Prop :=
  Forall (λ message,
            is_Some (content_of message) → is_Some (source_of message))
         items.

(** Sample items of a stream: a pair of the content and the source that an
    item has. *)
Definition sample_content (item : option string * option string)
    : option string := item.1.

Definition sample_source (item : option string * option string)
    : option string := item.2.

(** Two agent messages followed by an item without [content]. *)
Definition sample_stream : list (option string * option string) :=
  [(Some "Take a brisk walk.", Some "RetrieverAgent");
   (Some "Walk it off!", Some "ResponderAgent");
   (None, None)].

(** A model answer with whitespace around the thinking and a line break
    after the close tag. *)
Definition spaced_answer : string :=
  "<thinking> Check weather first. </thinking>" +:+ newline +:+
  "Visit Kyoto in April.".

(** An embeddings endpoint that answers with no data. *)
Definition no_data_endpoint : @EmbedTransport (list Q) := λ _ _, inr [].

(** A solve transport that always answers with the same text. *)
Definition canned_solver (content : string) : SolveTransport :=
  λ _ _, inr (Some content).

(** ** Facts about the string built-ins *)

Section StrFacts.

Implicit Types (s sub pre post : string) (c : ascii) (i j : nat).

Lemma app_cons c s t : String c s +:+ t = String c (s +:+ t).
Proof. reflexivity. Qed.

Lemma app_empty_l s : "" +:+ s = s.
Proof. reflexivity. Qed.

Lemma app_empty_r s : s +:+ "" = s.
Proof. induction s as [|c s IH]; [done|]. by rewrite app_cons, IH. Qed.

Lemma app_assoc' s t u : (s +:+ t) +:+ u = s +:+ t +:+ u.
Proof.
  induction s as [|c s IH]; [done|]. by rewrite !app_cons, IH.
Qed.

Lemma app_length' s t :
  String.length (s +:+ t) = (String.length s + String.length t)%nat.
Proof.
  induction s as [|c s IH]; [done|]. rewrite app_cons. simpl. by rewrite IH.
Qed.

Lemma startswith_app sub s :
  Str.startswith sub s = true ↔ ∃ post, s = sub +:+ post.
Proof.
  revert s. induction sub as [|a sub IH]; intros s; simpl.
  - split; [intros _; by exists s|done].
  - destruct s as [|b s].
    + split; [done|]. intros [post H]. by rewrite app_cons in H.
    + rewrite andb_true_iff, bool_decide_eq_true, IH. split.
      * intros [-> [post ->]]. by exists post.
      * intros [post H]. rewrite app_cons in H. simplify_eq. eauto.
Qed.

Lemma occurs_at_0 sub s : occurs_at sub s 0 ↔ Str.startswith sub s = true.
Proof.
  rewrite startswith_app. split.
  - intros (pre & post & -> & Hlen). destruct pre; [|done]. by exists post.
  - intros [post ->]. by exists "", post.
Qed.

Lemma occurs_at_S sub c s i :
  occurs_at sub (String c s) (S i) ↔ occurs_at sub s i.
Proof.
  split.
  - intros (pre & post & Heq & Hlen). destruct pre as [|c' pre]; [done|].
    rewrite app_cons in Heq. simplify_eq/=. by exists pre, post.
  - intros (pre & post & -> & <-). by exists (String c pre), post.
Qed.

Lemma index_Some sub s i :
  Str.index sub s = Some i → first_occurrence_from 0 sub s i.
Proof.
  revert i. induction s as [|c s IH]; intros i; simpl.
  - destruct (Str.startswith sub "") eqn:Hsw; [|done]. intros [= <-].
    split; [lia|]. split; [by apply occurs_at_0|]. intros j ?; lia.
  - destruct (Str.startswith sub (String c s)) eqn:Hsw.
    + intros [= <-]. split; [lia|]. split; [by apply occurs_at_0|].
      intros j ?; lia.
    + destruct (Str.index sub s) as [i'|] eqn:Hi; [|done]. intros [= <-].
      destruct (IH i' eq_refl) as (_ & Hocc & Hmin).
      split; [lia|]. split; [by apply occurs_at_S|].
      intros [|j] Hj.
      * rewrite occurs_at_0. congruence.
      * rewrite occurs_at_S. apply Hmin. lia.
Qed.

Lemma index_None sub s i : Str.index sub s = None → ¬ occurs_at sub s i.
Proof.
  revert i. induction s as [|c s IH]; intros i; simpl.
  - destruct (Str.startswith sub "") eqn:Hsw; [done|]. intros _.
    intros (pre & post & Heq & Hlen). destruct pre; simplify_eq/=.
    assert (Str.startswith sub "" = true); [|congruence].
    apply startswith_app. eauto.
  - destruct (Str.startswith sub (String c s)) eqn:Hsw; [done|].
    destruct (Str.index sub s) eqn:Hi; [done|]. intros _.
    destruct i as [|i].
    + rewrite occurs_at_0. congruence.
    + rewrite occurs_at_S. by apply IH.
Qed.

(** [sub in s] holds exactly when [sub] occurs somewhere in [s]. *)
Lemma contains_occurs sub s :
  Str.contains sub s = true ↔ ∃ i, occurs_at sub s i.
Proof.
  unfold Str.contains. rewrite bool_decide_eq_true. split.
  - intros [i Hi]. exists i. by apply index_Some in Hi as (_ & ? & _).
  - intros [i Hi]. destruct (Str.index sub s) eqn:E; [done|].
    by apply index_None with (i := i) in E.
Qed.

(** Where [sub in s] holds, [find] is the offset of the first occurrence. *)
Lemma find_contains sub s :
  Str.contains sub s = true →
  ∃ i, Str.find sub s = Z.of_nat i ∧ first_occurrence_from 0 sub s i.
Proof.
  unfold Str.contains, Str.find. rewrite bool_decide_eq_true.
  intros [i Hi]. rewrite Hi. exists i. split; [done|]. by apply index_Some.
Qed.

(** Where it does not, [find] is [-1]. *)
Lemma find_not_contains sub s :
  Str.contains sub s = false → Str.find sub s = -1.
Proof.
  unfold Str.contains, Str.find. rewrite bool_decide_eq_false.
  destruct (Str.index sub s); [|done]. intros []; eauto.
Qed.

End StrFacts.

(** ** Facts about slicing *)

Section SliceFacts.

Implicit Types (s x y z : string) (c : ascii).

Lemma substring_0_app y z :
  String.substring 0 (String.length y) (y +:+ z) = y.
Proof.
  induction y as [|c y IH].
  - by destruct z.
  - rewrite app_cons. simpl. by rewrite IH.
Qed.

Lemma substring_skip x s n :
  String.substring (String.length x) n (x +:+ s) = String.substring 0 n s.
Proof. induction x as [|c x IH]; [done|]. by rewrite app_cons. Qed.

Lemma substring_0_all s : String.substring 0 (String.length s) s = s.
Proof. induction s as [|c s IH]; [done|]. simpl. by rewrite IH. Qed.

Lemma substring_empty n s : String.substring n 0 s = "".
Proof.
  revert n. induction s as [|c s IH]; intros [|n]; simpl; auto.
Qed.

Lemma len_app x y : Str.len (x +:+ y) = Str.len x + Str.len y.
Proof. unfold Str.len. rewrite app_length'. lia. Qed.

Lemma len_nonneg s : 0 ≤ Str.len s.
Proof. unfold Str.len. lia. Qed.

Lemma clamp_in_range n i : 0 ≤ i ≤ n → Str.clamp n i = i.
Proof.
  intros ?. unfold Str.clamp. destruct (Z.ltb_spec i 0); lia.
Qed.

Lemma clamp_above n i : 0 ≤ n ≤ i → Str.clamp n i = n.
Proof.
  intros ?. unfold Str.clamp. destruct (Z.ltb_spec i 0); lia.
Qed.

(** [(x + y + z)[len(x) : len(x) + len(y)] == y] *)
Lemma slice_app x y z :
  Str.slice (x +:+ y +:+ z) (Str.len x) (Str.len x + Str.len y) = y.
Proof.
  unfold Str.slice. rewrite !len_app.
  pose proof (len_nonneg x). pose proof (len_nonneg y).
  pose proof (len_nonneg z).
  rewrite !clamp_in_range by lia.
  replace (Str.len x + Str.len y - Str.len x) with (Str.len y) by lia.
  unfold Str.len. rewrite !Nat2Z.id.
  by rewrite substring_skip, substring_0_app.
Qed.

(** [(x + y)[len(x):] == y] *)
Lemma slice_from_app x y : Str.slice_from (x +:+ y) (Str.len x) = y.
Proof.
  unfold Str.slice_from. rewrite len_app.
  pose proof (len_nonneg x). pose proof (len_nonneg y).
  rewrite clamp_in_range by lia.
  replace (Str.len x + Str.len y - Str.len x) with (Str.len y) by lia.
  unfold Str.len. rewrite !Nat2Z.id.
  by rewrite substring_skip, substring_0_all.
Qed.

(** [s[i:] == ""] once [i] is past the end. *)
Lemma slice_from_past_end s i : Str.len s ≤ i → Str.slice_from s i = "".
Proof.
  intros ?. unfold Str.slice_from. pose proof (len_nonneg s).
  rewrite clamp_above by lia. rewrite Z.sub_diag.
  apply substring_empty.
Qed.

(** [s[lo:hi] == ""] when the bounds cross. *)
Lemma slice_crossed s lo hi :
  0 ≤ hi ≤ lo → Str.slice s lo hi = "".
Proof.
  intros ?. unfold Str.slice. pose proof (len_nonneg s).
  assert (Str.clamp (Str.len s) hi - Str.clamp (Str.len s) lo ≤ 0) as Hle.
  { unfold Str.clamp.
    destruct (Z.ltb_spec hi 0), (Z.ltb_spec lo 0); lia. }
  replace (Z.to_nat (_ - _)) with 0%nat by lia.
  apply substring_empty.
Qed.

End SliceFacts.


(** ** Facts about the extraction *)

Section ExtractFacts.

Implicit Types (content pre mid post : string) (show_thinking : bool).

Lemma extract_off content :
  Reasoning.extract false content = VStr content.
Proof. reflexivity. Qed.

Lemma extract_no_open show_thinking content :
  Str.contains Reasoning.open_tag content = false →
  Reasoning.extract show_thinking content = VStr content.
Proof.
  intros H. unfold Reasoning.extract. rewrite H.
  by rewrite andb_false_r.
Qed.

Lemma extract_no_close show_thinking content :
  Str.contains Reasoning.close_tag content = false →
  Reasoning.extract show_thinking content = VStr content.
Proof.
  intros H. unfold Reasoning.extract. rewrite H.
  by rewrite andb_false_r.
Qed.

Lemma extract_both content :
  Str.contains Reasoning.open_tag content = true →
  Str.contains Reasoning.close_tag content = true →
  Reasoning.extract true content
  = VDict (Reasoning.thinking content) (Reasoning.final_answer content)
          content.
Proof. intros H1 H2. unfold Reasoning.extract. by rewrite H1, H2. Qed.

(** A dictionary comes back exactly when the caller asked for the thinking
    and both tags are in the text. *)
Lemma extract_dict_iff show_thinking content :
  (∃ t a f, Reasoning.extract show_thinking content = VDict t a f)
  ↔ show_thinking = true
    ∧ Str.contains Reasoning.open_tag content = true
    ∧ Str.contains Reasoning.close_tag content = true.
Proof.
  unfold Reasoning.extract. split.
  - intros (t & a & f & H).
    destruct show_thinking, (Str.contains Reasoning.open_tag content),
      (Str.contains Reasoning.close_tag content); simpl in H; done.
  - intros (-> & -> & ->). simpl. eauto.
Qed.

(** In a text whose first open tag is followed by [mid] and then by the
    first close tag of the whole text, the thinking is [mid], stripped. *)
Lemma thinking_between pre mid post :
  let content :=
    pre +:+ Reasoning.open_tag +:+ mid +:+ Reasoning.close_tag +:+ post in
  Str.find Reasoning.open_tag content = Str.len pre →
  Str.find Reasoning.close_tag content = Str.len pre + 10 + Str.len mid →
  Reasoning.thinking content = Str.strip mid.
Proof.
  intros content Ho Hc. unfold Reasoning.thinking, Reasoning.thinking_start,
    Reasoning.thinking_end. rewrite Ho, Hc. f_equal. unfold content.
  rewrite <- (app_assoc' pre).
  replace (Str.len pre + 10) with (Str.len (pre +:+ Reasoning.open_tag))
    by (rewrite len_app; reflexivity).
  apply slice_app.
Qed.

(** In such a text the answer is what follows the close tag less its first
    character, stripped: the slice starts 12 characters after the start of
    the 11-character close tag. *)
Lemma final_answer_skips_one pre c rest :
  let content := pre +:+ Reasoning.close_tag +:+ String c rest in
  Str.find Reasoning.close_tag content = Str.len pre →
  Reasoning.final_answer content = Str.strip rest.
Proof.
  intros content Hc. unfold Reasoning.final_answer, Reasoning.thinking_end.
  rewrite Hc. f_equal. unfold content.
  replace (pre +:+ Reasoning.close_tag +:+ String c rest)
    with ((pre +:+ Reasoning.close_tag +:+ String c "") +:+ rest).
  - replace (Str.len pre + 12)
      with (Str.len (pre +:+ Reasoning.close_tag +:+ String c "")).
    + apply slice_from_app.
    + rewrite !len_app. reflexivity.
  - by rewrite !app_assoc'.
Qed.

End ExtractFacts.

(** ** Facts about [plan_trip_with_reasoning] *)

Section PlanFacts.

Context (T : Transport).
Implicit Types (query content : string) (show_thinking : bool) (tr : Trace).

(** When the transport answers with a text, the call returns the
    extraction of the text after that one invocation. *)
Lemma plan_answered query show_thinking tr content :
  T tr (trip_request query) = inr (Some content) →
  plan_trip_with_reasoning T query show_thinking tr
  = (Returned (Reasoning.extract show_thinking content),
     tr ++ [Sent (trip_request query)]).
Proof.
  intros H. unfold plan_trip_with_reasoning, try_except, mbind, Py_bind,
    py_bind, send. by rewrite H.
Qed.

(** When the answer has no content and the thinking is asked for, the
    membership test raises inside the [try]: the handler prints and the
    call returns [None]. *)
Lemma plan_no_content_thinking query tr :
  T tr (trip_request query) = inr None →
  plan_trip_with_reasoning T query true tr
  = (Returned VNone,
     tr ++ [Sent (trip_request query); Printed (ErrorCallingAPI not_iterable);
            Printed (DeploymentHint model_name)]).
Proof.
  intros H. unfold plan_trip_with_reasoning, try_except, mbind, Py_bind,
    py_bind, send, print, mret, Py_ret, py_ret. rewrite H. simpl.
  by rewrite <- !(assoc_L (++)).
Qed.

(** When the answer has no content and the thinking is not asked for, the
    call returns that content, [None], and prints nothing. *)
Lemma plan_no_content_default query tr :
  T tr (trip_request query) = inr None →
  plan_trip_with_reasoning T query false tr
  = (Returned VNone, tr ++ [Sent (trip_request query)]).
Proof.
  intros H. unfold plan_trip_with_reasoning, try_except, mbind, Py_bind,
    py_bind, send. by rewrite H.
Qed.

(** When the transport raises an [Exception], the handler prints twice and
    the call returns [None]. *)
Lemma plan_caught query show_thinking tr e :
  T tr (trip_request query) = inl e →
  exn_is_Exception e = true →
  plan_trip_with_reasoning T query show_thinking tr
  = (Returned VNone,
     tr ++ [Sent (trip_request query); Printed (ErrorCallingAPI e);
            Printed (DeploymentHint model_name)]).
Proof.
  intros H He. unfold plan_trip_with_reasoning, try_except, mbind, Py_bind,
    py_bind, send, print, mret, Py_ret, py_ret. rewrite H, He.
  by rewrite <- !(assoc_L (++)).
Qed.

(** What is not an [Exception] passes through the handler. *)
Lemma plan_uncaught query show_thinking tr e :
  T tr (trip_request query) = inl e →
  exn_is_Exception e = false →
  plan_trip_with_reasoning T query show_thinking tr
  = (Raised e, tr ++ [Sent (trip_request query)]).
Proof.
  intros H He. unfold plan_trip_with_reasoning, try_except, mbind, Py_bind,
    py_bind, send. by rewrite H, He.
Qed.

Lemma invocations_app tr1 tr2 :
  invocations (tr1 ++ tr2) = (invocations tr1 + invocations tr2)%nat.
Proof. unfold invocations. by rewrite List.filter_app, length_app. Qed.

(** One call adds one invocation to the trace, whatever the transport
    does. *)
Lemma plan_invocations query show_thinking tr :
  invocations (plan_trip_with_reasoning T query show_thinking tr).2
  = S (invocations tr).
Proof.
  destruct (T tr (trip_request query)) as [e|[content|]] eqn:H.
  - destruct (exn_is_Exception e) eqn:He.
    + rewrite (plan_caught _ _ _ e) by done. simpl.
      rewrite invocations_app. simpl. unfold invocations at 2. simpl. lia.
    + rewrite (plan_uncaught _ _ _ e) by done. simpl.
      rewrite invocations_app. unfold invocations at 2. simpl. lia.
  - rewrite (plan_answered _ _ _ content) by done. simpl.
    rewrite invocations_app. unfold invocations at 2. simpl. lia.
  - destruct show_thinking.
    + rewrite plan_no_content_thinking by done. simpl.
      rewrite invocations_app. simpl. unfold invocations at 2. simpl. lia.
    + rewrite plan_no_content_default by done. simpl.
      rewrite invocations_app. unfold invocations at 2. simpl. lia.
Qed.

End PlanFacts.

Example plan_on_no_content :
  plan_trip_with_reasoning no_content_transport kyoto_query true []
  = (Returned VNone,
     [Sent (trip_request kyoto_query); Printed (ErrorCallingAPI not_iterable);
      Printed (DeploymentHint model_name)])
  ∧ plan_trip_with_reasoning no_content_transport kyoto_query false []
    = (Returned VNone, [Sent (trip_request kyoto_query)]).
Proof. split; reflexivity. Qed.

(** ** The extraction against the specification's splitter *)

(** C1. On the text of Scenario 1, with the thinking asked for, the code
    extracts the reasoning ["Check weather first."] but returns the answer
    ["isit Kyoto in April."]: the slice for the answer starts 12 characters
    after the start of the 11-character close tag, so the first character
    after the tag is lost, and the result is not the one the scenario
    states. *)
Theorem scenario1_answer_loses_first_character :
  Reasoning.extract true scenario1
  = VDict "Check weather first." "isit Kyoto in April." scenario1
  ∧ (plan_trip_with_reasoning (canned_transport scenario1) kyoto_query true
       []).1
    = Returned (VDict "Check weather first." "isit Kyoto in April." scenario1)
  ∧ SplitResult_of (Reasoning.extract true scenario1)
    ≠ Some {| reasoning := Some "Check weather first.";
              answer := "Visit Kyoto in April.";
              fullText := scenario1 |}.
Proof.
  split; [reflexivity|]. split; [reflexivity|].
  intros H. vm_compute in H. discriminate H.
Qed.

(** C3, as stated, fails: for ["<thinking>abc"], which has the open tag and
    no close tag, the code returns the text itself, not the stripped
    remainder ["abc"] as reasoning with an empty answer. *)
Lemma unterminated_is_returned_raw :
  Str.contains Reasoning.open_tag unterminated = true
  ∧ Str.contains Reasoning.close_tag unterminated = false
  ∧ unterminated_result unterminated
    = {| reasoning := Some "abc"; answer := ""; fullText := unterminated |}
  ∧ ∀ show_thinking,
      SplitResult_of (Reasoning.extract show_thinking unterminated)
      ≠ Some (unterminated_result unterminated).
Proof.
  split; [reflexivity|]. split; [reflexivity|]. split; [reflexivity|].
  intros [] H; vm_compute in H; discriminate H.
Qed.

(** C3, amended. For every text with no occurrence of the close tag,
    whether or not the open tag occurs and whether or not the thinking is
    asked for, the code returns the text unchanged as a plain string: no
    reasoning is extracted and the whole text is the answer. *)
Theorem no_close_tag_returns_raw content show_thinking :
  Str.contains Reasoning.close_tag content = false →
  Reasoning.extract show_thinking content = VStr content
  ∧ SplitResult_of (Reasoning.extract show_thinking content)
    = Some {| reasoning := None; answer := content; fullText := content |}.
Proof.
  intros H. by rewrite extract_no_close.
Qed.

(** C3, amended, on the unterminated text ["<thinking>abc"]. *)
Lemma no_close_tag_returns_raw_witness :
  Str.contains Reasoning.close_tag unterminated = false
  ∧ Reasoning.extract true unterminated = VStr unterminated
  ∧ SplitResult_of (Reasoning.extract true unterminated)
    = Some {| reasoning := None; answer := unterminated;
              fullText := unterminated |}.
Proof.
  split; [reflexivity|].
  apply (no_close_tag_returns_raw unterminated true). reflexivity.
Defined.

(** C4, as stated, fails: in ["</thinking>a<thinking>b</thinking>c"] both
    tags occur, and the close tag the code locates is the one at offset 0,
    before the open tag at offset 12, not the one at offset 23 after it. *)
Lemma close_tag_before_open_tag_is_located :
  Str.contains Reasoning.open_tag close_before_open = true
  ∧ Str.contains Reasoning.close_tag close_before_open = true
  ∧ Reasoning.thinking_start close_before_open = 22
  ∧ Reasoning.thinking_end close_before_open = 0
  ∧ first_occurrence_from 22 Reasoning.close_tag close_before_open 23
  ∧ ¬ locates_as_specified close_before_open.
Proof.
  split; [reflexivity|]. split; [reflexivity|]. split; [reflexivity|].
  split; [reflexivity|]. split.
  - split; [lia|]. split.
    + by exists "</thinking>a<thinking>b", "c".
    + intros j Hj. assert (j = 22%nat) as -> by lia.
      intros (pre & post & Heq & Hlen).
      do 23 (destruct pre as [|? pre]; [done|]). done.
  - intros (i & j & Hs & He & _ & Hle & _).
    change (Reasoning.thinking_start close_before_open) with 22 in Hs.
    change (Reasoning.thinking_end close_before_open) with 0 in He. lia.
Qed.

(** C4, amended. For every text in which both tags occur, the code locates
    the first occurrence of the open tag and the first occurrence of the
    close tag, each searched from the start of the text: never a later
    occurrence of either tag. *)
Theorem tags_located_from_start content :
  Str.contains Reasoning.open_tag content = true →
  Str.contains Reasoning.close_tag content = true →
  locates_from_start content.
Proof.
  intros Ho Hc.
  destruct (find_contains _ _ Ho) as (i & Hi & Hfi).
  destruct (find_contains _ _ Hc) as (j & Hj & Hfj).
  exists i, j. unfold Reasoning.thinking_start, Reasoning.thinking_end.
  rewrite Hi, Hj. done.
Qed.

(** C4, amended, on the text whose first close tag comes before its open
    tag. *)
Lemma tags_located_from_start_witness :
  Str.contains Reasoning.open_tag close_before_open = true
  ∧ Str.contains Reasoning.close_tag close_before_open = true
  ∧ locates_from_start close_before_open.
Proof.
  split; [reflexivity|]. split; [reflexivity|].
  apply (tags_located_from_start close_before_open); reflexivity.
Defined.

(** C6. In every branch the full text of the result is the response text,
    unmodified: the dictionary carries it under ["full_response"], and the
    plain string that is returned otherwise is the text itself. *)
Theorem full_text_preserved show_thinking content :
  fullText <$> SplitResult_of (Reasoning.extract show_thinking content)
  = Some content
  ∧ (Reasoning.extract show_thinking content = VStr content
     ∨ ∃ t a, Reasoning.extract show_thinking content = VDict t a content).
Proof.
  unfold Reasoning.extract.
  destruct (show_thinking && _ && _); simpl; eauto.
Qed.

(** C7. For every text with no occurrence of the open tag the code returns
    the text itself: the answer is the whole text, unchanged, and no
    reasoning is extracted. *)
Theorem no_open_tag_returns_raw content show_thinking :
  Str.contains Reasoning.open_tag content = false →
  Reasoning.extract show_thinking content = VStr content
  ∧ SplitResult_of (Reasoning.extract show_thinking content)
    = Some {| reasoning := None; answer := content; fullText := content |}.
Proof.
  intros H. by rewrite extract_no_open.
Qed.

(** C7 on the text of Scenario 2. *)
Lemma no_open_tag_returns_raw_witness :
  Str.contains Reasoning.open_tag scenario2 = false
  ∧ Reasoning.extract true scenario2 = VStr scenario2
  ∧ SplitResult_of (Reasoning.extract true scenario2)
    = Some {| reasoning := None; answer := scenario2;
              fullText := scenario2 |}.
Proof.
  split; [reflexivity|].
  apply (no_open_tag_returns_raw scenario2 true). reflexivity.
Defined.

(** ** The call as a whole *)

(** C2, as stated, fails: when the transport raises an authentication
    failure, [plan_trip_with_reasoning] does not raise it to its caller; it
    returns [None]. *)
Lemma auth_failure_is_not_propagated :
  ¬ propagates (plan_trip_with_reasoning failing_transport kyoto_query true)
      [] auth_failure
  ∧ (plan_trip_with_reasoning failing_transport kyoto_query true []).1
    = Returned VNone.
Proof.
  split; [|reflexivity]. unfold propagates. intros H. vm_compute in H.
  discriminate H.
Qed.

(** C2, amended. Whenever the transport raises an [Exception],
    [plan_trip_with_reasoning] catches it in its [except Exception] handler,
    prints the error and a deployment hint, and returns [None] as a normal
    return value; the transport has been invoked once and is not retried. *)
Theorem transport_error_is_caught T query show_thinking tr e :
  T tr (trip_request query) = inl e →
  exn_is_Exception e = true →
  let run := plan_trip_with_reasoning T query show_thinking tr in
  run.1 = Returned VNone
  ∧ ¬ propagates (plan_trip_with_reasoning T query show_thinking) tr e
  ∧ run.2 = tr ++ [Sent (trip_request query); Printed (ErrorCallingAPI e);
                   Printed (DeploymentHint model_name)]
  ∧ invocations run.2 = S (invocations tr).
Proof.
  intros H He run. unfold propagates, run.
  rewrite plan_invocations, (plan_caught _ _ _ _ e) by done. simpl.
  repeat split. discriminate.
Qed.

(** C2, amended, on the transport that fails to authenticate. *)
Lemma transport_error_is_caught_witness :
  failing_transport [] (trip_request kyoto_query) = inl auth_failure
  ∧ exn_is_Exception auth_failure = true
  ∧ let run := plan_trip_with_reasoning failing_transport kyoto_query true []
    in
    run.1 = Returned VNone
    ∧ ¬ propagates (plan_trip_with_reasoning failing_transport kyoto_query
                      true) [] auth_failure
    ∧ run.2 = [] ++ [Sent (trip_request kyoto_query);
                     Printed (ErrorCallingAPI auth_failure);
                     Printed (DeploymentHint model_name)]
    ∧ invocations run.2 = S (invocations []).
Proof.
  split; [reflexivity|]. split; [reflexivity|].
  apply (transport_error_is_caught failing_transport kyoto_query true []
           auth_failure); reflexivity.
Defined.

(** C8. Every call invokes the transport exactly once, whether the
    transport answers or raises: the trace grows by one [Sent] event, of the
    request built from the query, followed by prints only. Nothing is
    cached: a second call with the same arguments invokes the transport
    again. *)
Theorem one_invocation_per_call T query show_thinking tr :
  let run := plan_trip_with_reasoning T query show_thinking tr in
  invocations run.2 = S (invocations tr)
  ∧ (∃ prints, run.2 = tr ++ Sent (trip_request query) :: prints
               ∧ invocations prints = 0%nat)
  ∧ invocations (plan_trip_with_reasoning T query show_thinking run.2).2
    = S (S (invocations tr)).
Proof.
  intros run. unfold run. split; [apply plan_invocations|]. split.
  - destruct (T tr (trip_request query)) as [e|[content|]] eqn:H.
    + destruct (exn_is_Exception e) eqn:He.
      * rewrite (plan_caught _ _ _ _ e) by done. simpl. eauto.
      * rewrite (plan_uncaught _ _ _ _ e) by done. simpl. eauto.
    + rewrite (plan_answered _ _ _ _ content) by done. simpl. eauto.
    + destruct show_thinking.
      * rewrite plan_no_content_thinking by done. simpl. eauto.
      * rewrite plan_no_content_default by done. simpl. eauto.
  - by rewrite !plan_invocations.
Qed.

(** C9. Splitting is opt-in. When the transport answers with [content], the
    call with the default [show_thinking=False] returns [content] itself,
    tags included; and a call returns the dictionary, with [content] under
    ["full_response"], exactly when [show_thinking] is true and both tags
    occur in [content]; otherwise it returns [content] itself. *)
Theorem splitting_is_opt_in T query tr content :
  T tr (trip_request query) = inr (Some content) →
  (plan_trip_with_reasoning_default T query tr).1 = Returned (VStr content)
  ∧ ∀ show_thinking,
      let result := (plan_trip_with_reasoning T query show_thinking tr).1 in
      ((∃ t a f, result = Returned (VDict t a f))
       ↔ show_thinking = true
         ∧ Str.contains Reasoning.open_tag content = true
         ∧ Str.contains Reasoning.close_tag content = true)
      ∧ (result = Returned (VStr content)
         ∨ result = Returned (VDict (Reasoning.thinking content)
                                (Reasoning.final_answer content) content)).
Proof.
  intros H. unfold plan_trip_with_reasoning_default. split.
  - by rewrite (plan_answered _ _ _ _ content).
  - intros show_thinking.
    rewrite (plan_answered _ _ _ _ content) by done. simpl. split.
    + rewrite <- extract_dict_iff. split.
      * intros (t & a & f & [= Heq]). eauto.
      * intros (t & a & f & ->). eauto.
    + unfold Reasoning.extract. destruct (show_thinking && _ && _); eauto.
Qed.

(** C9 on the transport that answers with the text of Scenario 1. *)
Lemma splitting_is_opt_in_witness :
  canned_transport scenario1 [] (trip_request kyoto_query)
  = inr (Some scenario1)
  ∧ (plan_trip_with_reasoning_default (canned_transport scenario1)
       kyoto_query []).1 = Returned (VStr scenario1)
  ∧ ∀ show_thinking,
      let result :=
        (plan_trip_with_reasoning (canned_transport scenario1) kyoto_query
           show_thinking []).1 in
      ((∃ t a f, result = Returned (VDict t a f))
       ↔ show_thinking = true
         ∧ Str.contains Reasoning.open_tag scenario1 = true
         ∧ Str.contains Reasoning.close_tag scenario1 = true)
      ∧ (result = Returned (VStr scenario1)
         ∨ result = Returned (VDict (Reasoning.thinking scenario1)
                                (Reasoning.final_answer scenario1)
                                scenario1)).
Proof.
  split; [reflexivity|].
  apply (splitting_is_opt_in (canned_transport scenario1) kyoto_query []
           scenario1). reflexivity.
Defined.

(** ** Facts about [format] *)

Section FormatFacts.

Context (kwargs : gmap string string).
Implicit Types (s rest text name acc : string) (c : ascii).
Implicit Types (r : Str.FormatOutcome) (tpl : PromptTemplate).

Lemma emit_empty r : Str.emit "" r = r.
Proof. by destruct r. Qed.

Lemma emit_emit s text r :
  Str.emit s (Str.emit text r) = Str.emit (s +:+ text) r.
Proof. destruct r; simpl; [by rewrite app_assoc'|done..]. Qed.

Lemma ident_char_not_rbrace c : Str.is_ident_char c = true → c ≠ Str.rbrace.
Proof. intros H ->. discriminate H. Qed.

Lemma ident_start_not_lbrace c : Str.is_ident_start c = true → c ≠ Str.lbrace.
Proof. intros H ->. discriminate H. Qed.

Lemma ident_start_char c :
  Str.is_ident_start c = true → Str.is_ident_char c = true.
Proof. unfold Str.is_ident_char. by intros ->. Qed.

(** The scan, one step at a time. *)

Lemma format_go_char c s :
  c ≠ Str.lbrace → c ≠ Str.rbrace →
  Str.format_go kwargs None (String c s)
  = Str.emit (String c "") (Str.format_go kwargs None s).
Proof. intros. simpl. by rewrite !bool_decide_false. Qed.

Lemma format_go_lbrace_lbrace s :
  Str.format_go kwargs None (String Str.lbrace (String Str.lbrace s))
  = Str.emit "{" (Str.format_go kwargs None s).
Proof. reflexivity. Qed.

Lemma format_go_rbrace_rbrace s :
  Str.format_go kwargs None (String Str.rbrace (String Str.rbrace s))
  = Str.emit "}" (Str.format_go kwargs None s).
Proof. reflexivity. Qed.

Lemma format_go_open c s :
  c ≠ Str.lbrace →
  Str.format_go kwargs None (String Str.lbrace (String c s))
  = Str.format_go kwargs (Some "") (String c s).
Proof.
  intros. simpl. by rewrite bool_decide_false.
Qed.

Lemma format_go_in_field acc c s :
  c ≠ Str.rbrace →
  (if bool_decide (acc = "") then Str.is_ident_start c
   else Str.is_ident_char c) = true →
  Str.format_go kwargs (Some acc) (String c s)
  = Str.format_go kwargs (Some (acc +:+ String c "")) s.
Proof. intros ? H. simpl. rewrite bool_decide_false by done. by rewrite H. Qed.

Lemma format_go_close acc s :
  acc ≠ "" →
  Str.format_go kwargs (Some acc) (String Str.rbrace s)
  = match kwargs !! acc with
    | Some v => Str.emit v (Str.format_go kwargs None s)
    | None => Str.FormatRaises (KeyError acc)
    end.
Proof.
  intros. simpl. by destruct acc.
Qed.

(** Literal text comes out as it is. *)
Lemma format_go_escape text rest :
  Str.format_go kwargs None (escape text +:+ rest)
  = Str.emit text (Str.format_go kwargs None rest).
Proof.
  induction text as [|c text IH]; simpl escape.
  - by rewrite app_empty_l, emit_empty.
  - case_bool_decide as Hl; [|case_bool_decide as Hr].
    + subst c. change (("{{" +:+ escape text) +:+ rest)
        with (String Str.lbrace (String Str.lbrace (escape text +:+ rest))).
      by rewrite format_go_lbrace_lbrace, IH, emit_emit.
    + subst c. change (("}}" +:+ escape text) +:+ rest)
        with (String Str.rbrace (String Str.rbrace (escape text +:+ rest))).
      by rewrite format_go_rbrace_rbrace, IH, emit_emit.
    + rewrite app_cons, format_go_char, IH, emit_emit by done. done.
Qed.

(** Inside a field, an identifier is read up to its closing brace and then
    looked up. *)
Lemma format_go_name acc name rest :
  all_ident_chars name = true →
  (acc = "" → is_identifier name = true) →
  Str.format_go kwargs (Some acc) (name +:+ "}" +:+ rest)
  = match kwargs !! (acc +:+ name) with
    | Some v => Str.emit v (Str.format_go kwargs None rest)
    | None => Str.FormatRaises (KeyError (acc +:+ name))
    end.
Proof.
  revert acc. induction name as [|c name IH]; intros acc Hall Hid.
  - rewrite app_empty_r. apply format_go_close.
    intros ->. by specialize (Hid eq_refl).
  - simpl in Hall. apply andb_true_iff in Hall as [Hc Hall].
    rewrite app_cons, format_go_in_field.
    + rewrite IH; [|done|by destruct acc].
      by rewrite (app_assoc' acc (String c "") name).
    + by apply ident_char_not_rbrace.
    + case_bool_decide as Hacc; [|done]. specialize (Hid Hacc).
      simpl in Hid. by apply andb_true_iff in Hid as [? _].
Qed.

(** A whole placeholder. *)
Lemma format_go_placeholder name rest :
  is_identifier name = true →
  Str.format_go kwargs None ("{" +:+ name +:+ "}" +:+ rest)
  = match kwargs !! name with
    | Some v => Str.emit v (Str.format_go kwargs None rest)
    | None => Str.FormatRaises (KeyError name)
    end.
Proof.
  intros Hid. destruct name as [|c name]; [done|].
  pose proof Hid as Hid'. simpl in Hid'.
  apply andb_true_iff in Hid' as [Hc Hall].
  change ("{" +:+ String c name +:+ "}" +:+ rest)
    with (String Str.lbrace (String c (name +:+ "}" +:+ rest))).
  rewrite format_go_open by by apply ident_start_not_lbrace.
  rewrite <- app_cons, (format_go_name "" (String c name)); [done| |done].
  simpl. by rewrite (ident_start_char c), Hall.
Qed.

(** [format] on a well-formed template: the first unbound placeholder
    raises, and there being none the filled-in text comes out. *)
Lemma format_template tpl :
  well_formed tpl →
  Str.format_go kwargs None (template_text tpl)
  = match first_unbound kwargs tpl with
    | Some name => Str.FormatRaises (KeyError name)
    | None => Str.Formatted (fill kwargs tpl)
    end.
Proof.
  unfold well_formed, first_unbound.
  induction tpl as [|[text|name] tpl IH]; intros Hwf;
    cbn [template_text placeholders fill].
  - done.
  - rewrite format_go_escape, IH by done.
    by destruct (head _).
  - cbn [placeholders forallb] in Hwf.
    apply andb_true_iff in Hwf as [Hid Hwf].
    rewrite format_go_placeholder by done.
    destruct (kwargs !! name) as [v|] eqn:Hv.
    + rewrite filter_cons_False by (rewrite Hv; done).
      rewrite IH by done. simpl. by destruct (head _).
    + by rewrite filter_cons_True.
Qed.

End FormatFacts.

(** ** Rendering a prompt template *)

Section RenderFacts.

Context (bindings : gmap string string).
Implicit Types (tpl : PromptTemplate) (name : string).

Lemma first_unbound_Some tpl before name after :
  placeholders tpl = before ++ name :: after →
  Forall (λ n, is_Some (bindings !! n)) before →
  bindings !! name = None →
  first_unbound bindings tpl = Some name.
Proof.
  unfold first_unbound. intros -> Hbefore Hname.
  induction Hbefore as [|n before [v Hn] _ IH]; simpl.
  - by rewrite filter_cons_True.
  - rewrite filter_cons_False by (rewrite Hn; done). done.
Qed.

Lemma first_unbound_None tpl :
  Forall (λ n, is_Some (bindings !! n)) (placeholders tpl) →
  first_unbound bindings tpl = None.
Proof.
  unfold first_unbound. generalize (placeholders tpl). intros names H.
  induction H as [|n names [v Hn] _ IH]; [done|].
  rewrite filter_cons_False by (rewrite Hn; done). done.
Qed.

End RenderFacts.

(** C5. For every well-formed template with a placeholder that has no
    binding, rendering raises the [KeyError] (the specification's
    [MissingBindingError]) that names the first such placeholder in
    left-to-right order; and with every placeholder bound it does not fail
    and returns the template filled in. *)
Theorem render_raises_first_unbound tpl bindings :
  well_formed tpl →
  (∀ before name after,
     placeholders tpl = before ++ name :: after →
     Forall (λ n, is_Some (bindings !! n)) before →
     bindings !! name = None →
     render tpl bindings = Str.FormatRaises (MissingBindingError name))
  ∧ (Forall (λ n, is_Some (bindings !! n)) (placeholders tpl) →
     render tpl bindings = Str.Formatted (fill bindings tpl)).
Proof.
  intros Hwf. unfold render, Str.format. rewrite format_template by done.
  split.
  - intros before name after Heq Hbefore Hname.
    by rewrite (first_unbound_Some _ _ before name after).
  - intros Hall. by rewrite first_unbound_None.
Qed.

(** C5 on Scenario 4: ["Hello {name}."] with no bindings. *)
Lemma render_raises_first_unbound_witness :
  well_formed hello_template
  ∧ template_text hello_template = "Hello {name}."
  ∧ Str.format "Hello {name}." ∅
    = Str.FormatRaises (MissingBindingError "name").
Proof.
  split; [reflexivity|]. split; [reflexivity|].
  exact (proj1 (render_raises_first_unbound hello_template ∅ eq_refl)
           [] "name" [] eq_refl (List.Forall_nil _) eq_refl).
Defined.

(** Scenario 3. *)
Example render_hello_goal :
  Str.format "Hello {name}, goal: {goal}."
    (<["name" := "Jordan"]> (<["goal" := "endurance"]> ∅))
  = Str.Formatted "Hello Jordan, goal: endurance.".
Proof. reflexivity. Qed.

(** The rendering in [chat_with_template] binds both placeholders of its
    template, so it never fails. *)
Lemma system_prompt_never_fails user_name goal :
  system_prompt user_name goal
  = Str.Formatted
      ("You are FitChat GPT, an AI personal trainer for " +:+ user_name
       +:+ "." +:+ newline +:+ "Your user wants to achieve: " +:+ goal
       +:+ "." +:+ newline +:+
       "Remind them you're not a medical professional. Offer friendly advice.").
Proof.
  unfold system_prompt, Str.format.
  change system_template with (template_text system_segments).
  rewrite format_template by reflexivity.
  rewrite first_unbound_None.
  - cbn [fill system_segments]. rewrite lookup_insert_eq.
    rewrite lookup_insert_ne, lookup_insert_eq by done. simpl.
    by rewrite !app_assoc', app_empty_r.
  - repeat constructor.
    + rewrite lookup_insert_eq. eauto.
    + rewrite lookup_insert_ne, lookup_insert_eq by done. eauto.
Qed.

(** ** Facts about [retrieve_tips] *)

Section TipFacts.

Implicit Types (query query_lower sep p : string) (tip : Tip).
Implicit Types (tips : list Tip) (parts : list string).

(** The loop keeps, in order, the lines of the tips that pass the test. *)
Lemma collect_filter query_lower tips :
  collect query_lower tips
  = tip_line <$> filter (λ tip, any_word_in query_lower tip = true) tips.
Proof.
  unfold collect.
  set (step := λ (relevant : list string) tip,
         if any_word_in query_lower tip
         then relevant ++ [tip_line tip] else relevant).
  enough (∀ acc, foldl step acc tips
                 = acc ++ (tip_line <$>
                           filter (λ tip, any_word_in query_lower tip = true)
                                  tips)) as H by apply (H []).
  induction tips as [|tip tips IH]; intros acc; simpl.
  - by rewrite app_nil_r.
  - rewrite IH. unfold step.
    destruct (any_word_in query_lower tip) eqn:Hw.
    + rewrite filter_cons_True by done. by rewrite <- (assoc_L (++)).
    + rewrite filter_cons_False by (rewrite Hw; done). done.
Qed.

(** The test passes exactly when some word of the query occurs in the
    lowercased content of the tip. *)
Lemma any_word_in_occurs query_lower tip :
  any_word_in query_lower tip = true
  ↔ ∃ word, word ∈ Str.split query_lower
            ∧ ∃ i, occurs_at word (Str.lower (tip_content tip)) i.
Proof.
  unfold any_word_in. rewrite existsb_exists. split.
  - intros (word & Hin & Hc). exists word. split.
    + by apply list_elem_of_In.
    + by apply contains_occurs.
  - intros (word & Hin & Hc). exists word. split.
    + by apply list_elem_of_In.
    + by apply contains_occurs.
Qed.

Lemma join_nonempty sep p parts : p ≠ "" → Str.join sep (p :: parts) ≠ "".
Proof.
  intros Hp. destruct p as [|c p]; [done|]. by destruct parts.
Qed.

Lemma tip_line_nonempty tip : tip_line tip ≠ "".
Proof. done. Qed.

Lemma join_tip_lines_nonempty sep tips :
  tips ≠ [] → Str.join sep (tip_line <$> tips) ≠ "".
Proof.
  destruct tips as [|tip tips]; [done|]. intros _.
  rewrite fmap_cons. apply join_nonempty, tip_line_nonempty.
Qed.

(** The lines joined by [join] are the text of the tips. *)
Lemma join_tip_lines tips :
  Str.join newline (tip_line <$> tips) = tips_text tips.
Proof.
  induction tips as [|tip tips IH]; [done|].
  destruct tips as [|next tips]; [done|].
  rewrite fmap_cons. rewrite fmap_cons in IH.
  cbn [Str.join tips_text]. cbn [fmap list_fmap] in IH |- *.
  rewrite IH. unfold tip_line. by rewrite !app_assoc'.
Qed.

End TipFacts.

(** C10. For every query [retrieve_tips] returns a non-empty string. The
    tips it returns are, in the order of [health_tips], exactly those for
    which some whitespace-separated word of the lowercased query occurs in
    the lowercased content; and when there is no such tip, all five tips,
    one per line. The text returned is, for each of these tips, the line
    [Source: <source> => <content>], the lines joined by line breaks. *)
Theorem retrieve_tips_spec query :
  let query_lower := Str.lower query in
  let matching :=
    filter (λ tip, any_word_in query_lower tip = true) health_tips in
  retrieve_tips query ≠ ""
  ∧ (∀ tip, tip ∈ matching
            ↔ tip ∈ health_tips
              ∧ ∃ word, word ∈ Str.split query_lower
                        ∧ ∃ i, occurs_at word (Str.lower (tip_content tip)) i)
  ∧ (matching ≠ [] → retrieve_tips query = tips_text matching)
  ∧ (matching = [] →
     retrieve_tips query
     = "Source: Fitness Guru => Do a 10-minute HIIT workout to boost your metabolism.
Source: Health Coach => Take a brisk 15-minute walk to clear your mind and improve circulation.
Source: Wellness Expert => Stretch for 5 minutes every hour if you're sitting at a desk.
Source: Personal Trainer => Incorporate strength training twice a week for overall fitness.
Source: Nutritionist => Drink water regularly to stay hydrated during workouts.")
  ∧ length health_tips = 5%nat.
Proof.
  intros query_lower matching.
  assert (retrieve_tips query
          = Str.join newline
              (tip_line <$> (if bool_decide (matching = []) then health_tips
                             else matching))) as Hr.
  { unfold retrieve_tips. fold query_lower. rewrite collect_filter.
    fold matching. destruct matching as [|tip tips]; done. }
  split; [|split; [|split; [|split]]].
  - rewrite Hr. apply join_tip_lines_nonempty.
    case_bool_decide; done.
  - intros tip. unfold matching. rewrite list_elem_of_filter.
    rewrite any_word_in_occurs. tauto.
  - intros Hm. rewrite Hr, bool_decide_false by done. apply join_tip_lines.
  - intros Hm. rewrite Hr, bool_decide_true by done.
    rewrite join_tip_lines. reflexivity.
  - reflexivity.
Qed.

(** C10 on a query of which one word, in capitals, occurs in two tips. *)
Lemma retrieve_tips_spec_witness :
  let matching :=
    filter (λ tip, any_word_in (Str.lower "Quick WORKOUT") tip = true)
           health_tips in
  matching ≠ []
  ∧ retrieve_tips "Quick WORKOUT"
    = "Source: Fitness Guru => Do a 10-minute HIIT workout to boost your metabolism.
Source: Nutritionist => Drink water regularly to stay hydrated during workouts.".
Proof.
  intros matching.
  assert (matching ≠ []) as Hm by (vm_compute; discriminate).
  split; [exact Hm|].
  assert (tips_text matching
          = "Source: Fitness Guru => Do a 10-minute HIIT workout to boost your metabolism.
Source: Nutritionist => Drink water regularly to stay hydrated during workouts.")
    as Htext by (vm_compute; reflexivity).
  exact (eq_trans
           (proj1 (proj2 (proj2 (retrieve_tips_spec "Quick WORKOUT"))) Hm)
           Htext).
Defined.

Example retrieve_tips_water :
  retrieve_tips "More WATER please"
  = "Source: Nutritionist => Drink water regularly to stay hydrated during workouts.".
Proof. reflexivity. Qed.

Example retrieve_tips_fallback :
  retrieve_tips "Zzz" = Str.join newline (tip_line <$> health_tips).
Proof. reflexivity. Qed.

(** ** [strip] trims and [split] cuts at whitespace *)

Section WhitespaceFacts.

Implicit Types (s t l r w cur : string) (c : ascii).

Lemma lstrip_spec s :
  ∃ l, s = l +:+ Str.lstrip s ∧ all_space l = true
       ∧ starts_with_space (Str.lstrip s) = false.
Proof.
  induction s as [|c s (l & Heq & Hl & Hs)]; simpl.
  - by exists "".
  - destruct (Str.isspace c) eqn:Hc.
    + exists (String c l). rewrite app_cons, <- Heq. simpl. by rewrite Hc.
    + exists "". simpl. by rewrite Hc.
Qed.

Lemma rstrip_spec s :
  ∃ r, s = Str.rstrip s +:+ r ∧ all_space r = true
       ∧ ends_with_space (Str.rstrip s) = false.
Proof.
  induction s as [|c s (r & Heq & Hr & Hs)]; simpl.
  - by exists "".
  - destruct (Str.rstrip s) as [|c' t] eqn:Ht.
    + destruct (Str.isspace c) eqn:Hc.
      * exists (String c r). rewrite app_empty_l in *. subst s.
        simpl. by rewrite Hc.
      * exists r. rewrite app_cons, <- Heq. simpl. by rewrite Hc.
    + exists r. rewrite app_cons, <- Heq. done.
Qed.

Lemma rstrip_keeps_start s :
  starts_with_space s = false → starts_with_space (Str.rstrip s) = false.
Proof.
  destruct s as [|c s]; [done|]. simpl. intros Hc.
  destruct (Str.rstrip s); simpl; by rewrite ?Hc.
Qed.

(** [s.strip()] is [s] trimmed. *)
Lemma strip_trimmed s : trimmed s (Str.strip s).
Proof.
  unfold Str.strip.
  destruct (lstrip_spec s) as (l & Hl & Hsl & Hstart).
  destruct (rstrip_spec (Str.lstrip s)) as (r & Hr & Hsr & Hend).
  split; [|split; [by apply rstrip_keeps_start|done]].
  exists l, r. by rewrite <- Hr.
Qed.

(** Leading whitespace yields no word. *)
Lemma split_leading_space l s :
  all_space l = true → Str.split (l +:+ s) = Str.split s.
Proof.
  unfold Str.split. induction l as [|c l IH]; [done|].
  intros Hall. simpl in Hall. apply andb_true_iff in Hall as [Hc Hl].
  rewrite app_cons. simpl. rewrite Hc. simpl. auto.
Qed.

Lemma split_go_word cur w s :
  no_space w = true →
  Str.split_go cur (w +:+ s) = Str.split_go (cur +:+ w) s.
Proof.
  revert cur. induction w as [|c w IH]; intros cur Hall.
  - by rewrite app_empty_r.
  - simpl in Hall. apply andb_true_iff in Hall as [Hc Hw].
    apply negb_true_iff in Hc.
    rewrite app_cons. simpl. rewrite Hc, IH by done.
    by rewrite app_assoc'.
Qed.

(** A run of non-whitespace characters up to a whitespace character is a
    word, and the rest is split on its own. *)
Lemma split_word w c s :
  w ≠ "" → no_space w = true → Str.isspace c = true →
  Str.split (w +:+ String c s) = w :: Str.split s.
Proof.
  intros Hw Hns Hc. unfold Str.split. rewrite split_go_word by done.
  rewrite app_empty_l. simpl. rewrite Hc. by rewrite bool_decide_false.
Qed.

(** A run of non-whitespace characters at the end is the last word. *)
Lemma split_last_word w :
  w ≠ "" → no_space w = true → Str.split w = [w].
Proof.
  intros Hw Hns. unfold Str.split.
  rewrite <- (app_empty_r w) at 1. rewrite split_go_word by done.
  rewrite app_empty_l. simpl. by rewrite bool_decide_false.
Qed.

Example split_query :
  Str.split "  stay  fit.
 now " = ["stay"; "fit."; "now"].
Proof. reflexivity. Qed.

Example strip_padded :
  Str.strip (newline +:+ "  a b " +:+ newline) = "a b".
Proof. reflexivity. Qed.

Example lower_mixed : Str.lower "Stay FIT. 10-Minute HIIT" = "stay fit. 10-minute hiit".
Proof. reflexivity. Qed.

End WhitespaceFacts.

(** ** More facts about characters, [lower] and [split] *)

Section CaseFacts.

Implicit Types (s t a b cur : string) (c : ascii).

Lemma lower_char_idem c : Str.lower_char (Str.lower_char c) = Str.lower_char c.
Proof. by destruct c as [[] [] [] [] [] [] [] []]. Qed.

Lemma isspace_lower_char c : Str.isspace (Str.lower_char c) = Str.isspace c.
Proof. by destruct c as [[] [] [] [] [] [] [] []]. Qed.

(** Lowercasing twice is lowercasing once. *)
Lemma lower_idem s : Str.lower (Str.lower s) = Str.lower s.
Proof.
  induction s as [|c s IH]; [done|]. simpl. by rewrite lower_char_idem, IH.
Qed.

Lemma lower_app a b : Str.lower (a +:+ b) = Str.lower a +:+ Str.lower b.
Proof.
  induction a as [|c a IH]; [done|]. rewrite app_cons. simpl.
  by rewrite IH.
Qed.

Lemma all_space_lower s : all_space (Str.lower s) = all_space s.
Proof.
  induction s as [|c s IH]; [done|]. simpl.
  by rewrite isspace_lower_char, IH.
Qed.

(** A blank string has no words. *)
Lemma split_blank s : all_space s = true → Str.split s = [].
Proof.
  intros H. rewrite <- (app_empty_r s). by rewrite split_leading_space.
Qed.

Lemma split_go_sep cur a c b :
  Str.isspace c = true →
  Str.split_go cur (a +:+ String c b)
  = Str.split_go cur a ++ Str.split_go "" b.
Proof.
  intros Hc. revert cur. induction a as [|c' a IH]; intros cur.
  - rewrite app_empty_l. simpl. by rewrite Hc.
  - rewrite app_cons. simpl. destruct (Str.isspace c').
    + by rewrite IH, (assoc_L (++)).
    + apply IH.
Qed.

(** The words of two texts joined by a whitespace character are the words
    of the one followed by the words of the other. *)
Lemma split_sep a c b :
  Str.isspace c = true →
  Str.split (a +:+ String c b) = Str.split a ++ Str.split b.
Proof. apply split_go_sep. Qed.

End CaseFacts.

(** ** More about [retrieve_tips] *)

Section QueryFacts.

Implicit Types (query first_query second_query : string) (tip : Tip).

(** The result in terms of the matching tips. *)
Lemma retrieve_tips_matching query :
  retrieve_tips query
  = Str.join newline
      (tip_line <$> (if bool_decide (matching_tips query = [])
                     then health_tips else matching_tips query)).
Proof.
  unfold retrieve_tips, matching_tips. rewrite collect_filter.
  by destruct (filter _ health_tips).
Qed.

(** The words of a query joined from two are the words of both. *)
Lemma any_word_in_joined first_query second_query tip :
  any_word_in (Str.lower (first_query +:+ " " +:+ second_query)) tip
  = any_word_in (Str.lower first_query) tip
    || any_word_in (Str.lower second_query) tip.
Proof.
  unfold any_word_in. rewrite lower_app.
  change (Str.lower (" " +:+ second_query))
    with (String " " (Str.lower second_query)).
  rewrite split_sep by done. apply existsb_app.
Qed.

Lemma matching_tips_joined first_query second_query tip :
  tip ∈ matching_tips (first_query +:+ " " +:+ second_query)
  ↔ tip ∈ matching_tips first_query ∨ tip ∈ matching_tips second_query.
Proof.
  unfold matching_tips. rewrite !list_elem_of_filter, any_word_in_joined.
  rewrite orb_true_iff. tauto.
Qed.

Lemma matching_tips_swap first_query second_query :
  matching_tips (first_query +:+ " " +:+ second_query)
  = matching_tips (second_query +:+ " " +:+ first_query).
Proof.
  unfold matching_tips. apply list_filter_iff. intros tip.
  rewrite !any_word_in_joined, !orb_true_iff. tauto.
Qed.

Lemma matching_tips_blank query :
  all_space query = true → matching_tips query = [].
Proof.
  intros H. unfold matching_tips.
  assert (∀ tip, any_word_in (Str.lower query) tip = false) as Hnone.
  { intros tip. unfold any_word_in.
    by rewrite split_blank by by rewrite all_space_lower. }
  induction health_tips as [|tip tips IH]; [done|].
  rewrite filter_cons_False by (rewrite Hnone; done). done.
Qed.

End QueryFacts.

(** X10. Matching ignores the case of the query: the lowercased query gives
    the same result as the query. *)
Theorem retrieve_tips_ignores_case query :
  retrieve_tips (Str.lower query) = retrieve_tips query.
Proof. unfold retrieve_tips. by rewrite lower_idem. Qed.

(** X11. A query with no word in it, empty or all whitespace, matches no
    tip and so gets all five tips. *)
Theorem retrieve_tips_blank_query query :
  all_space query = true →
  matching_tips query = [] ∧ retrieve_tips query = all_tip_lines.
Proof.
  intros H. split; [by apply matching_tips_blank|].
  rewrite retrieve_tips_matching, matching_tips_blank by done. done.
Qed.

(** X11 on a query of two spaces and a line break. *)
Lemma retrieve_tips_blank_query_witness :
  all_space ("  " +:+ newline) = true
  ∧ matching_tips ("  " +:+ newline) = []
  ∧ retrieve_tips ("  " +:+ newline) = all_tip_lines.
Proof.
  split; [reflexivity|].
  apply (retrieve_tips_blank_query ("  " +:+ newline)). reflexivity.
Defined.

(** X12. Two queries joined by a space match exactly the tips that the one
    or the other matches, and the order of the two does not change the
    result. *)
Theorem retrieve_tips_joined_queries first_query second_query :
  (∀ tip, tip ∈ matching_tips (first_query +:+ " " +:+ second_query)
          ↔ tip ∈ matching_tips first_query
            ∨ tip ∈ matching_tips second_query)
  ∧ retrieve_tips (first_query +:+ " " +:+ second_query)
    = retrieve_tips (second_query +:+ " " +:+ first_query).
Proof.
  split; [intros tip; apply matching_tips_joined|].
  rewrite !retrieve_tips_matching.
  by rewrite (matching_tips_swap first_query second_query).
Qed.

(** ** More about the extraction *)

Section ExtractMore.

Implicit Types (s t sub pre mid post rest : string) (c : ascii).
Implicit Types (content : string) (n m k : nat).

Lemma find_nonneg_contains sub s :
  0 ≤ Str.find sub s → Str.contains sub s = true.
Proof.
  unfold Str.find, Str.contains. destruct (Str.index sub s); [|lia].
  intros _. apply bool_decide_eq_true. eauto.
Qed.

Lemma strip_leading_space c rest :
  Str.isspace c = true → Str.strip (String c rest) = Str.strip rest.
Proof. intros Hc. unfold Str.strip. simpl. by rewrite Hc. Qed.

Lemma clamp_bounds (len i : Z) : 0 ≤ len → 0 ≤ Str.clamp len i ≤ len.
Proof. intros ?. unfold Str.clamp. destruct (Z.ltb_spec i 0); lia. Qed.

Lemma clamp_le (len i : Z) : 0 ≤ len → 0 ≤ i → Str.clamp len i ≤ i.
Proof. intros ??. unfold Str.clamp. destruct (Z.ltb_spec i 0); lia. Qed.

(** A substring sits in its string at the offset it is taken from. *)
Lemma substring_decomp n m s :
  (n ≤ String.length s)%nat →
  ∃ pre post, s = pre +:+ String.substring n m s +:+ post
              ∧ String.length pre = n
              ∧ (String.length (String.substring n m s) ≤ m)%nat.
Proof.
  revert n m. induction s as [|c s IH]; intros n m Hn.
  - destruct n; [|simpl in Hn; lia]. exists "", "".
    destruct m; simpl; repeat split; lia.
  - destruct n as [|n].
    + destruct m as [|m].
      * exists "", (String c s). simpl. repeat split; lia.
      * destruct (IH 0%nat m) as (pre & post & Heq & Hlen & Hm);
          [simpl; lia|].
        destruct pre; [|done]. exists "", post.
        rewrite app_empty_l in Heq. rewrite app_empty_l. simpl.
        rewrite app_cons, <- Heq. repeat split; lia.
    + simpl in Hn. destruct (IH n m) as (pre & post & Heq & Hlen & Hm); [lia|].
      exists (String c pre), post. simpl. rewrite app_cons, <- Heq.
      repeat split; [lia|done].
Qed.

Lemma occurs_at_middle sub pre t post k :
  occurs_at sub t k →
  occurs_at sub (pre +:+ t +:+ post) (String.length pre + k).
Proof.
  intros (l & r & -> & <-). exists (pre +:+ l), (r +:+ post).
  by rewrite app_length', !app_assoc'.
Qed.

Lemma occurs_at_bound sub s k :
  occurs_at sub s k → (k + String.length sub ≤ String.length s)%nat.
Proof. intros (l & r & -> & <-). rewrite !app_length'. lia. Qed.

(** What occurs in a stripped slice occurs in the text, and ends before the
    upper bound of the slice. *)
Lemma occurs_in_stripped_slice sub content lo hi k :
  sub ≠ "" → 0 ≤ hi →
  occurs_at sub (Str.strip (Str.slice content lo hi)) k →
  ∃ p, occurs_at sub content p ∧ Z.of_nat (p + String.length sub) ≤ hi.
Proof.
  intros Hsub Hhi Hocc. unfold Str.slice in *.
  pose proof (len_nonneg content) as Hlen.
  pose proof (clamp_bounds (Str.len content) lo Hlen) as Hlo.
  pose proof (clamp_le (Str.len content) hi Hlen Hhi) as Hhi'.
  set (a := Z.to_nat (Str.clamp (Str.len content) lo)) in *.
  set (m := Z.to_nat (Str.clamp (Str.len content) hi
                      - Str.clamp (Str.len content) lo)) in *.
  destruct (strip_trimmed (String.substring a m content))
    as [(l & r & Ht & _ & _) _].
  destruct (substring_decomp a m content) as (pre & post & Hc & Hpre & Hm).
  { unfold a, Str.len in *. lia. }
  pose proof (occurs_at_middle sub l _ r k Hocc) as Hin.
  rewrite <- Ht in Hin.
  pose proof (occurs_at_bound _ _ _ Hin) as Hb.
  pose proof (occurs_at_middle sub pre _ post _ Hin) as Hin'.
  rewrite <- Hc in Hin'. eexists. split; [exact Hin'|].
  assert (0 < String.length sub)%nat by (destruct sub; [done|simpl; lia]).
  unfold a, m in *. lia.
Qed.

End ExtractMore.

(** X1. In a text made of a prefix, the first open tag, a middle, the first
    close tag and a rest that is empty or starts with whitespace, the
    extraction gives the stripped middle as thinking and the stripped rest
    as answer. *)
Theorem extract_well_formed pre mid post :
  let content :=
    pre +:+ Reasoning.open_tag +:+ mid +:+ Reasoning.close_tag +:+ post in
  Str.find Reasoning.open_tag content = Str.len pre →
  Str.find Reasoning.close_tag content = Str.len pre + 10 + Str.len mid →
  post = "" ∨ starts_with_space post = true →
  Reasoning.extract true content
  = VDict (Str.strip mid) (Str.strip post) content.
Proof.
  intros content Ho Hc Hpost.
  pose proof (len_nonneg pre). pose proof (len_nonneg mid).
  rewrite extract_both by (apply find_nonneg_contains; lia).
  f_equal.
  - by apply thinking_between.
  - assert (content = (pre +:+ Reasoning.open_tag +:+ mid)
                      +:+ Reasoning.close_tag +:+ post) as Heq
      by (unfold content; by rewrite !app_assoc').
    assert (Str.len content
            = Str.len pre + 10 + Str.len mid + 11 + Str.len post) as Hlen.
    { unfold content. rewrite !len_app.
      change (Str.len Reasoning.open_tag) with 10.
      change (Str.len Reasoning.close_tag) with 11. lia. }
    destruct post as [|c rest].
    + unfold Reasoning.final_answer, Reasoning.thinking_end.
      rewrite Hc, slice_from_past_end; [done|].
      rewrite Hlen. change (Str.len "") with 0. lia.
    + destruct Hpost as [|Hsp]; [done|]. simpl in Hsp.
      rewrite strip_leading_space by done. rewrite Heq.
      apply final_answer_skips_one. rewrite <- Heq, Hc, !len_app.
      change (Str.len Reasoning.open_tag) with 10. lia.
Qed.

(** X1 on a model answer with whitespace around the thinking and a line
    break after the close tag. *)
Lemma extract_well_formed_witness :
  Str.find Reasoning.open_tag spaced_answer = Str.len ""
  ∧ Str.find Reasoning.close_tag spaced_answer
    = Str.len "" + 10 + Str.len " Check weather first. "
  ∧ Reasoning.extract true spaced_answer
    = VDict "Check weather first." "Visit Kyoto in April." spaced_answer.
Proof.
  split; [reflexivity|]. split; [reflexivity|].
  exact (extract_well_formed "" " Check weather first. "
           (newline +:+ "Visit Kyoto in April.")
           eq_refl eq_refl (or_intror eq_refl)).
Defined.

(** X2. When both tags occur and the first close tag starts no later than
    the first open tag ends, a stray close tag ahead of the open tag for
    instance, the thinking that is extracted is empty. *)
Theorem extract_crossed_tags content :
  Str.contains Reasoning.open_tag content = true →
  Str.contains Reasoning.close_tag content = true →
  Reasoning.thinking_end content ≤ Reasoning.thinking_start content →
  Reasoning.extract true content
  = VDict "" (Reasoning.final_answer content) content.
Proof.
  intros Ho Hc Hle. rewrite extract_both by done. f_equal.
  unfold Reasoning.thinking. rewrite slice_crossed; [done|].
  split; [|done]. unfold Reasoning.thinking_end.
  destruct (find_contains _ _ Hc) as (j & -> & _). lia.
Qed.

(** X2 on the text whose first close tag comes before its open tag. *)
Lemma extract_crossed_tags_witness :
  Str.contains Reasoning.open_tag close_before_open = true
  ∧ Str.contains Reasoning.close_tag close_before_open = true
  ∧ Reasoning.thinking_end close_before_open
    ≤ Reasoning.thinking_start close_before_open
  ∧ Reasoning.extract true close_before_open
    = VDict "" (Reasoning.final_answer close_before_open) close_before_open.
Proof.
  split; [reflexivity|]. split; [reflexivity|].
  assert (Reasoning.thinking_end close_before_open
          ≤ Reasoning.thinking_start close_before_open) as Hle
    by (vm_compute; discriminate).
  split; [exact Hle|].
  exact (extract_crossed_tags close_before_open eq_refl eq_refl Hle).
Defined.

(** X3. The thinking that is extracted never contains the close tag, and
    neither the thinking nor the answer starts or ends with whitespace. *)
Theorem extracted_parts_are_clean content :
  Str.contains Reasoning.close_tag (Reasoning.thinking content) = false
  ∧ starts_with_space (Reasoning.thinking content) = false
  ∧ ends_with_space (Reasoning.thinking content) = false
  ∧ starts_with_space (Reasoning.final_answer content) = false
  ∧ ends_with_space (Reasoning.final_answer content) = false.
Proof.
  split.
  - apply not_true_is_false. intros Hin.
    apply contains_occurs in Hin as [k Hk].
    unfold Reasoning.thinking, Reasoning.thinking_end, Str.find in Hk.
    destruct (Str.index Reasoning.close_tag content) as [j|] eqn:Hj.
    + apply occurs_in_stripped_slice in Hk as (p & Hp & Hend);
        [|done|lia].
      apply index_Some in Hj as (_ & _ & Hmin).
      change (String.length Reasoning.close_tag) with 11%nat in Hend.
      apply (Hmin p); [|done]. lia.
    + assert (∃ p, occurs_at Reasoning.close_tag content p) as [p Hp].
      { unfold Str.slice in Hk.
        destruct (strip_trimmed
                    (String.substring
                       (Z.to_nat (Str.clamp (Str.len content)
                                    (Reasoning.thinking_start content)))
                       (Z.to_nat (Str.clamp (Str.len content) (-1)
                                  - Str.clamp (Str.len content)
                                      (Reasoning.thinking_start content)))
                       content)) as [(l & r & Ht & _ & _) _].
        pose proof (len_nonneg content) as Hlen.
        pose proof (clamp_bounds (Str.len content)
                      (Reasoning.thinking_start content) Hlen) as Hlo.
        destruct (substring_decomp
                    (Z.to_nat (Str.clamp (Str.len content)
                                 (Reasoning.thinking_start content)))
                    (Z.to_nat (Str.clamp (Str.len content) (-1)
                               - Str.clamp (Str.len content)
                                   (Reasoning.thinking_start content)))
                    content) as (pre & post & Hc & _ & _).
        { unfold Str.len in *. lia. }
        pose proof (occurs_at_middle _ l _ r k Hk) as Hin.
        rewrite <- Ht in Hin.
        pose proof (occurs_at_middle _ pre _ post _ Hin) as Hin'.
        rewrite <- Hc in Hin'. eauto. }
      by apply (index_None _ _ p) in Hj.
  - destruct (strip_trimmed
                (Str.slice content (Reasoning.thinking_start content)
                   (Reasoning.thinking_end content))) as (_ & ? & ?).
    destruct (strip_trimmed
                (Str.slice_from content (Reasoning.thinking_end content + 12)))
      as (_ & ? & ?).
    done.
Qed.

(** ** Stepping through a run *)

Section RunFacts.

Context {Ev A B : Type}.
Implicit Types (m : Run Ev A) (k : A → Run Ev B) (log : list Ev).

Lemma run_bind_returned m k log a log' :
  m log = (Returned a, log') → run_bind m k log = k a log'.
Proof. intros H. unfold run_bind. by rewrite H. Qed.

Lemma run_bind_raised m k log e log' :
  m log = (Raised e, log') → run_bind m k log = (Raised e, log').
Proof. intros H. unfold run_bind. by rewrite H. Qed.

End RunFacts.

(** ** [solve_technical_problem] and its cell *)

Section SolveFacts.

Context (T : SolveTransport).
Implicit Types (problem content : string) (log : list SolveEvent).

(** What the transport answers is returned as it is: the text, or [None]
    when the answer has no content. *)
Lemma solve_answered problem log (content : option string) :
  T log (problem_request problem) = inr content →
  solve_technical_problem T problem log
  = (Returned (content_value content),
     log ++ [SolveSent (problem_request problem)]).
Proof.
  intros H. unfold solve_technical_problem, except_Exception, mbind,
    Run_bind, run_bind, call. by rewrite H.
Qed.

Lemma solve_caught problem log e :
  T log (problem_request problem) = inl e →
  exn_is_Exception e = true →
  solve_technical_problem T problem log
  = (Returned VNone,
     log ++ [SolveSent (problem_request problem);
             SolvePrinted (ErrorSolvingProblem e)]).
Proof.
  intros H He. unfold solve_technical_problem, except_Exception, mbind,
    Run_bind, run_bind, call, say, mret, Run_ret, run_ret. rewrite H, He.
  by rewrite <- !(assoc_L (++)).
Qed.

Lemma solve_uncaught problem log e :
  T log (problem_request problem) = inl e →
  exn_is_Exception e = false →
  solve_technical_problem T problem log
  = (Raised e, log ++ [SolveSent (problem_request problem)]).
Proof.
  intros H He. unfold solve_technical_problem, except_Exception, mbind,
    Run_bind, run_bind, call. by rewrite H, He.
Qed.

End SolveFacts.

(** X5. [solve_technical_problem] sends one request. It returns the text
    of the answer as it is, tags included. It returns [None] in exactly two
    cases: the transport raised an [Exception], which it then has printed,
    or the answer has no content, and then nothing is printed. It never
    raises an [Exception] itself. *)
Theorem solve_technical_problem_outcomes T problem log :
  let run := solve_technical_problem T problem log in
  let req := problem_request problem in
  (∀ content, T log req = inr (Some content) →
              run.1 = Returned (VStr content))
  ∧ (run.1 = Returned VNone
     ↔ (∃ e, T log req = inl e ∧ exn_is_Exception e = true)
       ∨ T log req = inr None)
  ∧ (∀ e, run.1 = Raised e →
          T log req = inl e ∧ exn_is_Exception e = false)
  ∧ (∃ printed, run.2 = log ++ SolveSent req :: printed
                ∧ (printed = []
                   ∨ ∃ e, printed = [SolvePrinted (ErrorSolvingProblem e)]
                          ∧ T log req = inl e
                          ∧ exn_is_Exception e = true))
  ∧ (T log req = inr None → run.2 = log ++ [SolveSent req]).
Proof.
  intros run req. unfold run, req.
  destruct (T log (problem_request problem)) as [e|[content|]] eqn:H.
  - destruct (exn_is_Exception e) eqn:He.
    + rewrite (solve_caught _ _ _ e) by done. simpl.
      split; [done|]. split; [split; eauto|]. split; [done|].
      split; [eauto 8|done].
    + rewrite (solve_uncaught _ _ _ e) by done. simpl.
      split; [done|]. split; [|split; [|split]].
      * split; [done|]. intros [(e' & [= <-] & He')|?]; congruence.
      * intros e' [= <-]. done.
      * eauto.
      * done.
  - rewrite (solve_answered _ _ _ (Some content)) by done. simpl.
    split; [by intros ? [= <-]|]. split; [|split; [|split]].
    + split; [done|]. intros [(e & ? & _)|?]; done.
    + done.
    + eauto.
    + done.
  - rewrite (solve_answered _ _ _ None) by done. simpl.
    split; [done|]. split; [|split; [|split]].
    + split; [eauto|done].
    + done.
    + eauto.
    + done.
Qed.

(** X6. The cell around [solve_technical_problem] prints the failure line
    when the transport raised an [Exception], when it answered with the
    empty string, and when the answer has no content. Any non-empty answer
    is printed as the solution. *)
Theorem solution_cell_reports T problem log :
  let log1 := log ++ [SolvePrinted (ProblemLine problem)] in
  let req := problem_request problem in
  (∀ content, T log1 req = inr (Some content) → content ≠ "" →
     solution_cell T problem log
     = (Returned tt,
        log1 ++ [SolveSent req; SolvePrinted SolutionHeader;
                 SolvePrinted (SolutionText (VStr content))]))
  ∧ (T log1 req = inr (Some "") →
     solution_cell T problem log
     = (Returned tt,
        log1 ++ [SolveSent req; SolvePrinted FailedToGetSolution]))
  ∧ (∀ e, T log1 req = inl e → exn_is_Exception e = true →
     solution_cell T problem log
     = (Returned tt,
        log1 ++ [SolveSent req; SolvePrinted (ErrorSolvingProblem e);
                 SolvePrinted FailedToGetSolution]))
  ∧ (T log1 req = inr None →
     solution_cell T problem log
     = (Returned tt,
        log1 ++ [SolveSent req; SolvePrinted FailedToGetSolution])).
Proof.
  intros log1 req. unfold log1, req.
  unfold solution_cell, mbind, Run_bind.
  rewrite (run_bind_returned _ _ log tt
             (log ++ [SolvePrinted (ProblemLine problem)])) by done.
  split; [|split; [|split]].
  - intros content H Hne.
    rewrite (run_bind_returned _ _ _ _ _ (solve_answered T _ _ _ H)).
    unfold truthy. simpl. rewrite bool_decide_false by done. simpl.
    unfold run_bind, say. by rewrite <- !(assoc_L (++)).
  - intros H.
    rewrite (run_bind_returned _ _ _ _ _ (solve_answered T _ _ _ H)).
    simpl. unfold say. by rewrite <- !(assoc_L (++)).
  - intros e H He.
    rewrite (run_bind_returned _ _ _ _ _ (solve_caught T _ _ _ H He)).
    simpl. unfold say. by rewrite <- !(assoc_L (++)).
  - intros H.
    rewrite (run_bind_returned _ _ _ _ _ (solve_answered T _ _ _ H)).
    simpl. unfold say. by rewrite <- !(assoc_L (++)).
Qed.

(** X6 on a transport that answers with the empty string. *)
Lemma solution_cell_reports_witness :
  canned_solver "" ([] ++ [SolvePrinted (ProblemLine "2 + 2?")])
    (problem_request "2 + 2?") = inr (Some "")
  ∧ solution_cell (canned_solver "") "2 + 2?" []
    = (Returned tt,
       [SolvePrinted (ProblemLine "2 + 2?");
        SolveSent (problem_request "2 + 2?");
        SolvePrinted FailedToGetSolution]).
Proof.
  split; [reflexivity|].
  exact (proj1 (proj2 (solution_cell_reports (canned_solver "") "2 + 2?" []))
           eq_refl).
Defined.

(** X5 on a transport that answers with the text of Scenario 1. *)
Lemma solve_technical_problem_outcomes_witness :
  canned_solver scenario1 [] (problem_request "2 + 2?")
  = inr (Some scenario1)
  ∧ (solve_technical_problem (canned_solver scenario1) "2 + 2?" []).1
    = Returned (VStr scenario1).
Proof.
  split; [reflexivity|].
  exact (proj1 (solve_technical_problem_outcomes (canned_solver scenario1)
                  "2 + 2?" []) scenario1 eq_refl).
Defined.

(** ** The cell around [plan_trip_with_reasoning] *)

Lemma trip_cell_lines (T : Transport) (query : string) (tr : Trace) :
  (trip_cell T query tr).2
  = match T tr (trip_request query) with
    | inl e =>
        if exn_is_Exception e
        then [QueryLine query; FailedToGetRecommendations] else []
    | inr (Some content) =>
        trip_report query (Reasoning.extract true content)
    | inr None => [QueryLine query; FailedToGetRecommendations]
    end.
Proof.
  unfold trip_cell.
  destruct (T tr (trip_request query)) as [e|[content|]] eqn:H.
  - destruct (exn_is_Exception e) eqn:He.
    + by rewrite (plan_caught _ _ _ _ e).
    + by rewrite (plan_uncaught _ _ _ _ e).
  - by rewrite (plan_answered _ _ _ _ content).
  - by rewrite plan_no_content_thinking.
Qed.

(** Which lines the cell prints, by what the transport does. *)
Lemma trip_cell_line_cases (T : Transport) (query : string) (tr : Trace) :
  let req := trip_request query in
  let lines := (trip_cell T query tr).2 in
  (FailedToGetRecommendations ∈ lines
   ↔ (∃ e, T tr req = inl e ∧ exn_is_Exception e = true)
     ∨ T tr req = inr (Some "")
     ∨ T tr req = inr None)
  ∧ (ThinkingHeader ∈ lines
     ↔ ∃ content, T tr req = inr (Some content)
                  ∧ Str.contains Reasoning.open_tag content = true
                  ∧ Str.contains Reasoning.close_tag content = true)
  ∧ (∀ content, T tr req = inr (Some content) → ThinkingHeader ∈ lines →
       lines = [QueryLine query; ThinkingHeader;
                TripText (Reasoning.thinking content); RecommendationHeader;
                TripText (Reasoning.final_answer content)])
  ∧ (∀ content, T tr req = inr (Some content) → content ≠ "" →
       ThinkingHeader ∉ lines →
       lines = [QueryLine query; TravelPlanHeader; TripText content]).
Proof.
  intros req lines. unfold lines, req. rewrite trip_cell_lines.
  destruct (T tr (trip_request query)) as [e|[content|]] eqn:H.
  - destruct (exn_is_Exception e) eqn:He.
    + split; [|split; [|split]]; [|split|..]; try done.
      * split; [eauto|]. intros _. apply list_elem_of_In. simpl. tauto.
      * intros Hin. apply list_elem_of_In in Hin. simpl in Hin.
        by destruct Hin as [|[|[]]].
      * by intros (? & ? & _).
    + split; [|split; [|split]]; [split|split|..]; try done.
      * intros Hin. by apply elem_of_nil in Hin.
      * intros [(e' & [= <-] & ?)|[?|?]]; congruence.
      * intros Hin. by apply elem_of_nil in Hin.
      * by intros (? & ? & _).
  - unfold Reasoning.extract, trip_report. simpl.
    destruct (Str.contains Reasoning.open_tag content
              && Str.contains Reasoning.close_tag content) eqn:Hboth.
    + apply andb_true_iff in Hboth as [Ho Hc].
      split; [|split; [|split]]; [split|split|..].
      * intros Hin. apply list_elem_of_In in Hin. simpl in Hin.
        by destruct Hin as [|[|[|[|[|[]]]]]].
      * intros [(? & ? & _)|[[= ->]|?]]; done.
      * eauto.
      * intros _. apply list_elem_of_In. simpl. tauto.
      * by intros ? [= <-] _.
      * intros ? _ _ Hnot. exfalso. apply Hnot.
        apply list_elem_of_In. simpl. tauto.
    + unfold truthy.
      assert (ThinkingHeader ∉
                QueryLine query ::
                (if negb (bool_decide (content = ""))
                 then [TravelPlanHeader; TripText content]
                 else [FailedToGetRecommendations])) as Hnot.
      { intros Hin. apply list_elem_of_In in Hin.
        destruct (negb _); simpl in Hin;
          by destruct Hin as [|[|[|[]]]] || by destruct Hin as [|[|[]]]. }
      split; [|split; [|split]]; [split|split|..].
      * intros Hin. right. left. do 2 f_equal.
        destruct (decide (content = "")) as [|Hne]; [done|].
        rewrite bool_decide_false in Hin by done. simpl in Hin.
        apply list_elem_of_In in Hin. simpl in Hin.
        by destruct Hin as [|[|[|[]]]].
      * intros [(? & ? & _)|[[= ->]|?]]; [done| |done].
        apply list_elem_of_In. simpl. tauto.
      * intros Hin. by destruct Hnot.
      * intros (c & [= <-] & Ho & Hc). by rewrite Ho, Hc in Hboth.
      * intros ? _ Hin. by destruct Hnot.
      * intros ? [= <-] Hne _. by rewrite bool_decide_false.
  - split; [|split; [|split]]; [split|split|..]; try done.
    + eauto.
    + intros _. apply list_elem_of_In. simpl. tauto.
    + intros Hin. apply list_elem_of_In in Hin. simpl in Hin.
      by destruct Hin as [|[|[]]].
    + by intros (? & ? & _).
Qed.

(** X4. The cell that calls [plan_trip_with_reasoning] with
    [show_thinking=True] prints the failure line in exactly three cases:
    the transport raised an [Exception], it answered with the empty string,
    or its answer has no content, on which the tag test raises a
    [TypeError] that the function catches and prints. It prints the thinking
    exactly when the answer is a text with both tags; what it prints then
    are the extracted thinking and answer. Any other non-empty text is
    printed whole as the travel plan. *)
Theorem trip_cell_reports T query tr :
  let req := trip_request query in
  let lines := (trip_cell T query tr).2 in
  (FailedToGetRecommendations ∈ lines
   ↔ (∃ e, T tr req = inl e ∧ exn_is_Exception e = true)
     ∨ T tr req = inr (Some "")
     ∨ T tr req = inr None)
  ∧ (ThinkingHeader ∈ lines
     ↔ ∃ content, T tr req = inr (Some content)
                  ∧ Str.contains Reasoning.open_tag content = true
                  ∧ Str.contains Reasoning.close_tag content = true)
  ∧ (∀ content, T tr req = inr (Some content) → ThinkingHeader ∈ lines →
       lines = [QueryLine query; ThinkingHeader;
                TripText (Reasoning.thinking content); RecommendationHeader;
                TripText (Reasoning.final_answer content)])
  ∧ (∀ content, T tr req = inr (Some content) → content ≠ "" →
       ThinkingHeader ∉ lines →
       lines = [QueryLine query; TravelPlanHeader; TripText content])
  ∧ (T tr req = inr None →
     (trip_cell T query tr).1
     = (Returned tt,
        tr ++ [Sent req; Printed (ErrorCallingAPI not_iterable);
               Printed (DeploymentHint model_name)])).
Proof.
  intros req lines.
  destruct (trip_cell_line_cases T query tr) as (Hfail & Hthink & Hdict & Hplan).
  split; [exact Hfail|]. split; [exact Hthink|]. split; [exact Hdict|].
  split; [exact Hplan|].
  intros H. unfold trip_cell, req. by rewrite plan_no_content_thinking.
Qed.

(** X4 on a transport that answers with the empty string. *)
Lemma trip_cell_reports_witness :
  canned_transport "" [] (trip_request kyoto_query) = inr (Some "")
  ∧ FailedToGetRecommendations
    ∈ (trip_cell (canned_transport "") kyoto_query []).2.
Proof.
  split; [reflexivity|].
  exact (proj2 (proj1 (trip_cell_reports (canned_transport "") kyoto_query
                         []))
           (or_intror (or_introl eq_refl))).
Defined.

(** ** [chat_with_fitness_assistant] *)

(** With no [try] around the call, what the transport raises is raised to
    the caller, and what it answers is returned, after one invocation. *)
Lemma chat_with_fitness_assistant_outcome (T : Transport)
    (model_deployment user_input : string) (tr : Trace) :
  let req := chat_request model_deployment system_text user_input in
  chat_with_fitness_assistant T model_deployment user_input tr
  = (match T tr req with
     | inl e => Raised e
     | inr content => Returned content
     end, tr ++ [Sent req]).
Proof. reflexivity. Qed.

(** ** [chat_with_template] as a whole *)

(** X7. Whatever the user name and the goal are, braces and placeholder
    syntax included, [chat_with_template] renders its system prompt without
    an error and with both values inserted as they are, and then sends one
    request with that prompt and the user input; what the transport answers
    or raises is what the call returns or raises. *)
Theorem chat_with_template_renders_verbatim T model_deployment user_input
    user_name goal :
  let prompt :=
    "You are FitChat GPT, an AI personal trainer for " +:+ user_name
    +:+ "." +:+ newline +:+ "Your user wants to achieve: " +:+ goal
    +:+ "." +:+ newline +:+
    "Remind them you're not a medical professional. Offer friendly advice."
  in
  let req := chat_request model_deployment prompt user_input in
  ∃ run, chat_with_template T model_deployment user_input user_name goal
         = Some run
         ∧ ∀ tr, run tr = (match T tr req with
                           | inl e => Raised e
                           | inr content => Returned content
                           end, tr ++ [Sent req]).
Proof.
  intros prompt req. unfold chat_with_template.
  rewrite system_prompt_never_fails. eexists. split; [done|].
  intros tr. reflexivity.
Qed.

Example chat_with_template_braces :
  ∃ run, chat_with_template (canned_transport "ok") "gpt-4o" "Hi" "{goal}"
           "{name}}" = Some run
         ∧ (run []).1 = Returned (Some "ok").
Proof. eexists. split; reflexivity. Qed.

(** ** [embed_with_template] *)

(** X8. The user text can be read back from the text that is embedded: it
    is what follows the template and one space. So two user texts are
    embedded as the same text only if they are equal. *)
Theorem embed_content_round_trip user_text :
  Str.slice_from (embed_content user_text) (Str.len TEMPLATE_SYSTEM + 1)
  = user_text
  ∧ ∀ other, embed_content other = embed_content user_text →
             other = user_text.
Proof.
  assert (∀ text,
            Str.slice_from (embed_content text) (Str.len TEMPLATE_SYSTEM + 1)
            = text) as Hback.
  { intros text. unfold embed_content.
    rewrite <- (app_assoc' TEMPLATE_SYSTEM " " text).
    replace (Str.len TEMPLATE_SYSTEM + 1)
      with (Str.len (TEMPLATE_SYSTEM +:+ " "))
      by (rewrite len_app; reflexivity).
    apply slice_from_app. }
  split; [apply Hback|].
  intros other Heq. rewrite <- (Hback other), Heq. apply Hback.
Qed.

(** X8 on a sample user text. *)
Lemma embed_content_round_trip_witness :
  embed_content "Quick workout?" = embed_content "Quick workout?"
  ∧ Str.slice_from (embed_content "Quick workout?")
      (Str.len TEMPLATE_SYSTEM + 1) = "Quick workout?".
Proof.
  split; [reflexivity|].
  exact (proj1 (embed_content_round_trip "Quick workout?")).
Defined.

Section EmbedFacts.

Context {Embedding : Type} (T : @EmbedTransport Embedding).
Implicit Types (model user_text : string) (log : list EmbedEvent).

(** X9. [embed_with_template] sends one request, whose input is the one
    text made of the template, a space and the user text. It returns the
    first embedding of the answer, raises [IndexError] when the answer has
    no data, and raises what the transport raises. *)
Theorem embed_with_template_outcomes model user_text log :
  let req := embed_request model user_text in
  let run := embed_with_template T model user_text log in
  run.2 = log ++ [EmbedSent req]
  ∧ embed_input req = [TEMPLATE_SYSTEM +:+ " " +:+ user_text]
  ∧ (∀ first rest,
       T log req = inr (first :: rest) → run.1 = Returned first)
  ∧ (T log req = inr [] → run.1 = Raised IndexError)
  ∧ (∀ e, T log req = inl e → run.1 = Raised e).
Proof.
  intros req run. unfold run, req, embed_with_template, mbind, Run_bind,
    run_bind, call.
  destruct (T log (embed_request model user_text)) as [e|[|first rest]];
    simpl.
  - repeat split; try done. by intros ? [= <-].
  - repeat split; done.
  - repeat split; try done. by intros ?? [= <- _].
Qed.

End EmbedFacts.

(** X9 on an endpoint that answers with no data. *)
Lemma embed_with_template_outcomes_witness :
  no_data_endpoint [] (embed_request "text-embedding-3-small" "Quick workout?")
  = inr []
  ∧ (embed_with_template no_data_endpoint "text-embedding-3-small"
       "Quick workout?" []).1
    = Raised IndexError.
Proof.
  split; [reflexivity|].
  exact (proj1 (proj2 (proj2 (proj2
           (embed_with_template_outcomes no_data_endpoint
              "text-embedding-3-small" "Quick workout?" [])))) eq_refl).
Defined.

(** ** [run_query] *)

Section StreamFacts.

Context {Item : Type}.
Context (content_of source_of : Item → option string).
Context (is_true : Item → bool).
Implicit Types (message : Item) (items : list Item).
Implicit Types (log : list StreamLine) (final_result : option Item).

Lemma show_message_lines message log :
  (is_Some (content_of message) → is_Some (source_of message)) →
  show_message content_of source_of message log
  = (Returned tt, log ++ message_lines content_of source_of [message]).
Proof.
  intros Hsrc. unfold show_message, message_lines. simpl.
  destruct (content_of message) as [content|]; simpl.
  - destruct Hsrc as [source ->]; [eauto|]. done.
  - unfold mret, Run_ret, run_ret. by rewrite app_nil_r.
Qed.

(** The loop prints the message lines in order and ends with the last item
    in [final_result]. *)
Lemma stream_loop_lines items final_result log :
  sources_present content_of source_of items →
  stream_loop content_of source_of final_result items log
  = (Returned (match last items with
               | Some message => Some message
               | None => final_result
               end),
     log ++ message_lines content_of source_of items).
Proof.
  intros Hsrc. revert final_result log.
  induction Hsrc as [|message items Hm _ IH]; intros final_result log.
  - simpl. unfold mret, Run_ret, run_ret. by rewrite app_nil_r.
  - cbn [stream_loop]. unfold mbind, Run_bind.
    rewrite (run_bind_returned _ _ _ _ _ (show_message_lines _ log Hm)).
    rewrite IH. f_equal.
    + destruct items as [|next items]; [done|].
      change (last (message :: next :: items)) with (last (next :: items)).
      destruct (last (next :: items)) eqn:Hlast; [done|].
      by apply last_None in Hlast.
    + rewrite <- (assoc_L (++)). f_equal. unfold message_lines.
      change (message :: items) with ([message] ++ items).
      by rewrite omap_app.
Qed.

(** X13. For a stream whose items with a [content] have a [source], and
    which then ends: [run_query] prints the message lines in order and
    then, as the final response, the content of the last item. When that
    last item has no [content] it raises [AttributeError] instead, after
    the message lines; and for a stream with no item, or with a last item
    that is false, the final response is ["No response"]. *)
Theorem run_query_final_response items log :
  sources_present content_of source_of items →
  let run := run_query content_of source_of is_true items log in
  let printed := log ++ message_lines content_of source_of items in
  (∀ message content,
     last items = Some message → is_true message = true →
     content_of message = Some content →
     run = (Returned tt, printed ++ [FinalResponse content]))
  ∧ (∀ message,
       last items = Some message → is_true message = true →
       content_of message = None →
       run = (Raised (AttributeError "content"), printed))
  ∧ (∀ message,
       last items = Some message → is_true message = false →
       run = (Returned tt, printed ++ [FinalResponse "No response"]))
  ∧ (items = [] →
     run = (Returned tt, log ++ [FinalResponse "No response"])).
Proof.
  intros Hsrc run printed. unfold run, printed, run_query.
  rewrite (run_bind_returned _ _ _ _ _
             (stream_loop_lines items None log Hsrc)).
  split; [|split; [|split]].
  - intros message content -> Htrue Hc. unfold final_text.
    by rewrite Htrue, Hc.
  - intros message -> Htrue Hc. unfold final_text.
    by rewrite Htrue, Hc.
  - intros message -> Hfalse. unfold final_text. by rewrite Hfalse.
  - intros ->. simpl. by rewrite app_nil_r.
Qed.

End StreamFacts.

(** X13 on two agent messages followed by an item without [content]. *)
Lemma run_query_final_response_witness :
  sources_present sample_content sample_source sample_stream
  ∧ last sample_stream = Some (None, None)
  ∧ run_query sample_content sample_source (λ _, true) sample_stream []
    = (Raised (AttributeError "content"),
       [MessageLine "RetrieverAgent" "Take a brisk walk.";
        MessageLine "ResponderAgent" "Walk it off!"]).
Proof.
  assert (sources_present sample_content sample_source sample_stream) as Hsrc
    by (repeat constructor; simpl; eauto).
  split; [exact Hsrc|]. split; [reflexivity|].
  exact (proj1 (proj2 (run_query_final_response sample_content sample_source
                         (λ _, true) sample_stream [] Hsrc))
           (None, None) eq_refl eq_refl eq_refl).
Defined.
